(** * JuggleJam: the simulation step, the input mapper and the progression
      ledger of [SimpleGameEngine], embedded in Rocq.

    Conventions of the embedding.

    - A JavaScript [number] that holds a measure (positions, velocities,
      multipliers, random draws) is an exact rational of [Q]; equalities
      between such numbers are stated with [==].  Rounding of IEEE-754
      doubles, infinities and NaN are outside the model.
    - A [number] that always holds an integer (tick counter, coin counts,
      achievement progress, streak, timestamps) is a [Z].
    - A field is named as in the source where the name is free; the
      fields [position], [velocity], [radius], [id], [type] and the like,
      which several interfaces share, carry the name of their record
      ([ball_position], [coin_id], ...), the components [x] and [y] of a
      vector are [xOf] and [yOf], and the screens ['leaderboard'] and
      ['achievements'] are [leaderboardScreen] and [achievementsScreen].
    - [Math.random()] reads an oracle [nat -> Q] through a cursor; the
      clock [Date.now()] is an input of the handlers that read it.
    - React state: an updater [prev => next] is a function on [GameState];
      a handler that reads the rendered [gameState] and then enqueues
      updaters is applied to the state it was rendered with.  The writes
      to the key-value store ([saveCoins] and the like) are not part of the
      state and are left out, and so are the glyph fields ([emoji], [icon])
      that only the rendering reads. *)

From Stdlib Require Import ZArith QArith Qminmax Qabs Qround Lia Lqa DecimalString.
From stdpp Require Import base option list strings sorting.

Local Open Scope Q_scope.

(** ** Data model (types/game.ts) *)

Record Vector2 := mkVector2 { xOf : Q; yOf : Q }.

Record Ball := mkBall {
  ball_position : Vector2;
  ball_velocity : Vector2;
  ball_radius : Q }.

Inductive ObstacleType := cone | goalpost | defender.

Record Obstacle := mkObstacle {
  obstacle_id : string;
  obstacle_position : Vector2;
  obstacle_velocity : Vector2;
  obstacle_type : ObstacleType;
  obstacle_width : Q;
  obstacle_height : Q }.

Record Coin := mkCoin {
  coin_id : string;
  coin_position : Vector2;
  coin_velocity : Vector2;
  coin_radius : Q;
  coin_value : Z }.

Inductive GameScreen :=
  menu | playing | gameOver | store | leaderboardScreen | achievementsScreen.

Record LeaderboardEntry := mkLeaderboardEntry {
  entry_id : string;
  entry_playerName : string;
  bestTime : Z;
  bestCoins : Z;
  bestTimeTimestamp : Z;
  bestCoinsTimestamp : Z;
  bestTimeSkin : string;
  bestCoinsSkin : string }.

Inductive LeaderboardCategory := byTime | byCoins.

Record DailyReward := mkDailyReward {
  reward_day : Z;
  reward_coins : Z;
  reward_description : string;
  claimed : bool }.

Inductive AchievementType := ofTime | ofCoins | ofGames | ofSkins | ofSpecial.

Record Achievement := mkAchievement {
  achievement_id : string;
  title : string;
  achievement_description : string;
  requirement : Z;
  progress : Z;
  completed : bool;
  reward : Z;
  achievement_type : AchievementType }.

Record BallSkin := mkBallSkin {
  skin_id : string;
  skin_name : string;
  coinPrice : Z;
  cashPrice : Z;
  skin_unlocked : bool }.

Record GameState := mkGameState {
  ball : Ball;
  obstacles : list Obstacle;
  coins : list Coin;
  score : Z;
  highScore : Z;
  collectedCoins : Z;
  currentScreen : GameScreen;
  selectedSkin : string;
  unlockedSkins : list string;
  adsRemoved : bool;
  leaderboard : list LeaderboardEntry;
  playerName : string;
  leaderboardCategory : LeaderboardCategory;
  dailyRewards : list DailyReward;
  lastLoginDate : string;
  currentStreak : Z;
  achievements : list Achievement;
  totalGamesPlayed : Z;
  canWatchAdToContinue : bool }.

Record GameConfig := mkGameConfig {
  gravity : Q;
  ballRadius : Q;
  screenWidth : Q;
  screenHeight : Q;
  obstacleSpeed : Q;
  spawnRate : Q }.

#[export] Instance GameScreen_eq_dec : EqDecision GameScreen.
Proof. solve_decision. Defined.

(** Field updates, one per field the engine writes ([{ ...prev, f: v }]). *)

Definition with_ball (b : Ball) (s : GameState) : GameState :=
  mkGameState b (obstacles s) (coins s) (score s) (highScore s)
    (collectedCoins s) (currentScreen s) (selectedSkin s) (unlockedSkins s)
    (adsRemoved s) (leaderboard s) (playerName s) (leaderboardCategory s)
    (dailyRewards s) (lastLoginDate s) (currentStreak s) (achievements s)
    (totalGamesPlayed s) (canWatchAdToContinue s).

Definition with_obstacles (o : list Obstacle) (s : GameState) : GameState :=
  mkGameState (ball s) o (coins s) (score s) (highScore s)
    (collectedCoins s) (currentScreen s) (selectedSkin s) (unlockedSkins s)
    (adsRemoved s) (leaderboard s) (playerName s) (leaderboardCategory s)
    (dailyRewards s) (lastLoginDate s) (currentStreak s) (achievements s)
    (totalGamesPlayed s) (canWatchAdToContinue s).

Definition with_coins (c : list Coin) (s : GameState) : GameState :=
  mkGameState (ball s) (obstacles s) c (score s) (highScore s)
    (collectedCoins s) (currentScreen s) (selectedSkin s) (unlockedSkins s)
    (adsRemoved s) (leaderboard s) (playerName s) (leaderboardCategory s)
    (dailyRewards s) (lastLoginDate s) (currentStreak s) (achievements s)
    (totalGamesPlayed s) (canWatchAdToContinue s).

Definition with_score (n : Z) (s : GameState) : GameState :=
  mkGameState (ball s) (obstacles s) (coins s) n (highScore s)
    (collectedCoins s) (currentScreen s) (selectedSkin s) (unlockedSkins s)
    (adsRemoved s) (leaderboard s) (playerName s) (leaderboardCategory s)
    (dailyRewards s) (lastLoginDate s) (currentStreak s) (achievements s)
    (totalGamesPlayed s) (canWatchAdToContinue s).

Definition with_highScore (n : Z) (s : GameState) : GameState :=
  mkGameState (ball s) (obstacles s) (coins s) (score s) n
    (collectedCoins s) (currentScreen s) (selectedSkin s) (unlockedSkins s)
    (adsRemoved s) (leaderboard s) (playerName s) (leaderboardCategory s)
    (dailyRewards s) (lastLoginDate s) (currentStreak s) (achievements s)
    (totalGamesPlayed s) (canWatchAdToContinue s).

Definition with_collectedCoins (n : Z) (s : GameState) : GameState :=
  mkGameState (ball s) (obstacles s) (coins s) (score s) (highScore s)
    n (currentScreen s) (selectedSkin s) (unlockedSkins s)
    (adsRemoved s) (leaderboard s) (playerName s) (leaderboardCategory s)
    (dailyRewards s) (lastLoginDate s) (currentStreak s) (achievements s)
    (totalGamesPlayed s) (canWatchAdToContinue s).

Definition with_currentScreen (g : GameScreen) (s : GameState) : GameState :=
  mkGameState (ball s) (obstacles s) (coins s) (score s) (highScore s)
    (collectedCoins s) g (selectedSkin s) (unlockedSkins s)
    (adsRemoved s) (leaderboard s) (playerName s) (leaderboardCategory s)
    (dailyRewards s) (lastLoginDate s) (currentStreak s) (achievements s)
    (totalGamesPlayed s) (canWatchAdToContinue s).

Definition with_selectedSkin (k : string) (s : GameState) : GameState :=
  mkGameState (ball s) (obstacles s) (coins s) (score s) (highScore s)
    (collectedCoins s) (currentScreen s) k (unlockedSkins s)
    (adsRemoved s) (leaderboard s) (playerName s) (leaderboardCategory s)
    (dailyRewards s) (lastLoginDate s) (currentStreak s) (achievements s)
    (totalGamesPlayed s) (canWatchAdToContinue s).

Definition with_unlockedSkins (u : list string) (s : GameState) : GameState :=
  mkGameState (ball s) (obstacles s) (coins s) (score s) (highScore s)
    (collectedCoins s) (currentScreen s) (selectedSkin s) u
    (adsRemoved s) (leaderboard s) (playerName s) (leaderboardCategory s)
    (dailyRewards s) (lastLoginDate s) (currentStreak s) (achievements s)
    (totalGamesPlayed s) (canWatchAdToContinue s).

Definition with_leaderboard (l : list LeaderboardEntry) (s : GameState)
  : GameState :=
  mkGameState (ball s) (obstacles s) (coins s) (score s) (highScore s)
    (collectedCoins s) (currentScreen s) (selectedSkin s) (unlockedSkins s)
    (adsRemoved s) l (playerName s) (leaderboardCategory s)
    (dailyRewards s) (lastLoginDate s) (currentStreak s) (achievements s)
    (totalGamesPlayed s) (canWatchAdToContinue s).

Definition with_dailyRewards (d : list DailyReward) (s : GameState)
  : GameState :=
  mkGameState (ball s) (obstacles s) (coins s) (score s) (highScore s)
    (collectedCoins s) (currentScreen s) (selectedSkin s) (unlockedSkins s)
    (adsRemoved s) (leaderboard s) (playerName s) (leaderboardCategory s)
    d (lastLoginDate s) (currentStreak s) (achievements s)
    (totalGamesPlayed s) (canWatchAdToContinue s).

Definition with_lastLoginDate (d : string) (s : GameState) : GameState :=
  mkGameState (ball s) (obstacles s) (coins s) (score s) (highScore s)
    (collectedCoins s) (currentScreen s) (selectedSkin s) (unlockedSkins s)
    (adsRemoved s) (leaderboard s) (playerName s) (leaderboardCategory s)
    (dailyRewards s) d (currentStreak s) (achievements s)
    (totalGamesPlayed s) (canWatchAdToContinue s).

Definition with_currentStreak (n : Z) (s : GameState) : GameState :=
  mkGameState (ball s) (obstacles s) (coins s) (score s) (highScore s)
    (collectedCoins s) (currentScreen s) (selectedSkin s) (unlockedSkins s)
    (adsRemoved s) (leaderboard s) (playerName s) (leaderboardCategory s)
    (dailyRewards s) (lastLoginDate s) n (achievements s)
    (totalGamesPlayed s) (canWatchAdToContinue s).

Definition with_achievements (a : list Achievement) (s : GameState)
  : GameState :=
  mkGameState (ball s) (obstacles s) (coins s) (score s) (highScore s)
    (collectedCoins s) (currentScreen s) (selectedSkin s) (unlockedSkins s)
    (adsRemoved s) (leaderboard s) (playerName s) (leaderboardCategory s)
    (dailyRewards s) (lastLoginDate s) (currentStreak s) a
    (totalGamesPlayed s) (canWatchAdToContinue s).

Definition with_totalGamesPlayed (n : Z) (s : GameState) : GameState :=
  mkGameState (ball s) (obstacles s) (coins s) (score s) (highScore s)
    (collectedCoins s) (currentScreen s) (selectedSkin s) (unlockedSkins s)
    (adsRemoved s) (leaderboard s) (playerName s) (leaderboardCategory s)
    (dailyRewards s) (lastLoginDate s) (currentStreak s) (achievements s)
    n (canWatchAdToContinue s).

Definition with_canWatchAdToContinue (b : bool) (s : GameState) : GameState :=
  mkGameState (ball s) (obstacles s) (coins s) (score s) (highScore s)
    (collectedCoins s) (currentScreen s) (selectedSkin s) (unlockedSkins s)
    (adsRemoved s) (leaderboard s) (playerName s) (leaderboardCategory s)
    (dailyRewards s) (lastLoginDate s) (currentStreak s) (achievements s)
    (totalGamesPlayed s) b.

(** ** Constant tables of the engine *)

Definition BALL_SKINS : list BallSkin :=
  [ mkBallSkin "classic" "Classic" 0 0 true;
    mkBallSkin "basketball" "Basketball" 100 99 false;
    mkBallSkin "tennis" "Tennis Ball" 150 99 false;
    mkBallSkin "volleyball" "Volleyball" 200 149 false;
    mkBallSkin "football" "American Football" 250 149 false;
    mkBallSkin "baseball" "Baseball" 300 199 false;
    mkBallSkin "golf" "Golf Ball" 350 199 false;
    mkBallSkin "crystal" "Crystal Ball" 500 299 false ].

Definition DAILY_REWARDS : list DailyReward :=
  [ mkDailyReward 1 10 "Welcome back!" false;
    mkDailyReward 2 15 "Keep it up!" false;
    mkDailyReward 3 20 "Great streak!" false;
    mkDailyReward 4 25 "You're on fire!" false;
    mkDailyReward 5 30 "Amazing dedication!" false;
    mkDailyReward 6 40 "Almost there!" false;
    mkDailyReward 7 50 "Weekly champion!" false ].

Definition INITIAL_ACHIEVEMENTS : list Achievement :=
  [ mkAchievement "first_game" "Getting Started"
      "Play your first game" 1 0 false 10 ofGames;
    mkAchievement "collect_50_coins" "Coin Collector"
      "Collect 50 coins in total" 50 0 false 20 ofCoins;
    mkAchievement "survive_60s" "Survivor"
      "Survive for 60 seconds in one game" 60 0 false 30 ofTime;
    mkAchievement "play_10_games" "Dedicated Player"
      "Play 10 games" 10 0 false 25 ofGames;
    mkAchievement "collect_3_skins" "Fashion Forward"
      "Unlock 3 different ball skins" 3 1 false 40 ofSkins;
    mkAchievement "collect_100_one_game" "Treasure Hunter"
      "Collect 100 coins in one game" 100 0 false 50 ofCoins;
    mkAchievement "survive_120s" "Master Survivor"
      "Survive for 2 minutes in one game" 120 0 false 75 ofTime;
    mkAchievement "login_streak" "Daily Champion"
      "Login for 7 days in a row" 7 0 false 100 ofSpecial ].

(** ** Difficulty curve *)

Definition getDifficultyMultiplier (score : Z) : Q * Q :=
  let timeInSeconds := inject_Z score / 60 in
  let speedMultiplier := Qmin (1 + (timeInSeconds / 120) * 0.8) 2.2 in
  let spawnMultiplier := Qmin (1 + (timeInSeconds / 90) * 2) 3.5 in
  (speedMultiplier, spawnMultiplier).

Definition speedMultiplier (score : Z) : Q := fst (getDifficultyMultiplier score).
Definition spawnMultiplier (score : Z) : Q := snd (getDifficultyMultiplier score).

(** ** Comparisons of numbers, as booleans *)

Definition Qltb (a b : Q) : bool := negb (Qle_bool b a).
Definition Qleb (a b : Q) : bool := Qle_bool a b.

(** [Math.sqrt(dx*dx + dy*dy) < bound]: a square root is never negative, so
    the test fails for [bound <= 0] and compares the squares otherwise. *)
Definition distanceLt (dx dy bound : Q) : bool :=
  Qltb 0 bound && Qltb (dx * dx + dy * dy) (bound * bound).

(** ** The source of randomness

    A computation that calls [Math.random()] reads the oracle at the cursor
    and moves the cursor on. *)

Definition Rand (A : Type) : Type := (nat -> Q) -> nat -> A * nat.

Definition retR {A} (a : A) : Rand A := fun _ n => (a, n).

Definition bindR {A B} (m : Rand A) (k : A -> Rand B) : Rand B :=
  fun rnd n => let (a, n') := m rnd n in k a rnd n'.

Definition random : Rand Q := fun rnd n => (rnd n, S n).

Notation "x <- m ;; k" := (bindR m (fun x => k))
  (at level 100, m at next level, right associativity).

(** ** Simulation step ([updatePhysics]) *)

Section Engine.

Variables SCREEN_WIDTH SCREEN_HEIGHT : Q.

Definition BASE_CONFIG : GameConfig :=
  mkGameConfig 0.3 25 SCREEN_WIDTH SCREEN_HEIGHT 1.5 0.008.

(** The ball, statement by statement. *)

Definition applyGravity (b : Ball) : Ball :=
  let v := ball_velocity b in
  mkBall (ball_position b) (mkVector2 (xOf v) (yOf v + gravity BASE_CONFIG))
    (ball_radius b).

Definition updatePosition (b : Ball) : Ball :=
  let p := ball_position b in
  let v := ball_velocity b in
  mkBall (mkVector2 (xOf p + xOf v) (yOf p + yOf v)) v (ball_radius b).

Definition applyFriction (b : Ball) : Ball :=
  let v := ball_velocity b in
  mkBall (ball_position b) (mkVector2 (xOf v * 0.95) (yOf v * 0.99))
    (ball_radius b).

Definition leftBoundary (b : Ball) : Ball :=
  if Qleb (xOf (ball_position b)) (ballRadius BASE_CONFIG) then
    mkBall (mkVector2 (ballRadius BASE_CONFIG) (yOf (ball_position b)))
      (mkVector2 (Qabs (xOf (ball_velocity b)) * 0.7) (yOf (ball_velocity b)))
      (ball_radius b)
  else b.

Definition rightBoundary (b : Ball) : Ball :=
  if Qleb (SCREEN_WIDTH - ballRadius BASE_CONFIG) (xOf (ball_position b)) then
    mkBall
      (mkVector2 (SCREEN_WIDTH - ballRadius BASE_CONFIG) (yOf (ball_position b)))
      (mkVector2 (- Qabs (xOf (ball_velocity b)) * 0.7) (yOf (ball_velocity b)))
      (ball_radius b)
  else b.

Definition stepBall (b : Ball) : Ball :=
  rightBoundary (leftBoundary (applyFriction (updatePosition (applyGravity b)))).

Definition onGround (b : Ball) : bool :=
  Qleb (SCREEN_HEIGHT - ballRadius BASE_CONFIG) (yOf (ball_position b)).

(** The window outside of which obstacles and coins are dropped. *)

Definition inWindow (p : Vector2) : bool :=
  Qltb (-100) (xOf p) && Qltb (xOf p) (SCREEN_WIDTH + 100) &&
  Qltb (-100) (yOf p) && Qltb (yOf p) (SCREEN_HEIGHT + 100).

Definition withinWindow (p : Vector2) : Prop :=
  -100 < xOf p < SCREEN_WIDTH + 100 /\ -100 < yOf p < SCREEN_HEIGHT + 100.

Definition worldWithinWindow (s : GameState) : Prop :=
  Forall (fun o => withinWindow (obstacle_position o)) (obstacles s) /\
  Forall (fun c => withinWindow (coin_position c)) (coins s).

Definition advance (p v : Vector2) : Vector2 :=
  mkVector2 (xOf p + xOf v) (yOf p + yOf v).

Definition moveObstacle (o : Obstacle) : Obstacle :=
  mkObstacle (obstacle_id o)
    (advance (obstacle_position o) (obstacle_velocity o))
    (obstacle_velocity o) (obstacle_type o) (obstacle_width o)
    (obstacle_height o).

Definition updateObstacles (os : list Obstacle) : list Obstacle :=
  List.filter (fun o => inWindow (obstacle_position o)) (map moveObstacle os).

Definition moveCoin (c : Coin) : Coin :=
  mkCoin (coin_id c) (advance (coin_position c) (coin_velocity c))
    (coin_velocity c) (coin_radius c) (coin_value c).

Definition updateCoins (cs : list Coin) : list Coin :=
  List.filter (fun c => inWindow (coin_position c)) (map moveCoin cs).

Inductive Side := sideLeft | sideRight.

Definition pickSide (r : Q) : Side := if Qltb r 0.5 then sideLeft else sideRight.

(** [['cone', 'goalpost', 'defender'][Math.floor(r * 3)]].  A draw of
    [Math.random()] lies in [0, 1), so the index is 0, 1 or 2; at any other
    index the source reads [undefined], for which its two conditionals
    compute the width and height of a defender. *)
Definition pickType (r : Q) : ObstacleType :=
  match Qfloor (r * 3) with
  | 0%Z => cone
  | 1%Z => goalpost
  | _ => defender
  end.

Definition widthOf (t : ObstacleType) : Q :=
  match t with cone => 30 | goalpost => 20 | defender => 40 end.

Definition heightOf (t : ObstacleType) : Q :=
  match t with cone => 40 | goalpost => 80 | defender => 60 end.

(** [Date.now().toString()] *)
Definition timestampString (now : Z) : string :=
  NilZero.string_of_int (Z.to_int now).

Definition spawnObstacle (now : Z) (speedM spawnM : Q) : Rand (list Obstacle) :=
  roll <- random ;;
  if Qltb roll (spawnRate BASE_CONFIG * spawnM) then
    rs <- random ;;
    rt <- random ;;
    ry <- random ;;
    let side := pickSide rs in
    let obstacleType := pickType rt in
    retR [ mkObstacle (timestampString now)
             (mkVector2
                (match side with sideLeft => -50 | sideRight => SCREEN_WIDTH + 50 end)
                (ry * (SCREEN_HEIGHT - 200) + 100))
             (mkVector2
                (match side with
                 | sideLeft => obstacleSpeed BASE_CONFIG * speedM
                 | sideRight => - obstacleSpeed BASE_CONFIG * speedM
                 end)
                0)
             obstacleType (widthOf obstacleType) (heightOf obstacleType) ]
  else retR [].

Definition hitsObstacle (b : Ball) (o : Obstacle) : bool :=
  distanceLt
    (xOf (ball_position b) - (xOf (obstacle_position o) + obstacle_width o / 2))
    (yOf (ball_position b) - (yOf (obstacle_position o) + obstacle_height o / 2))
    (ballRadius BASE_CONFIG + Qmin (obstacle_width o) (obstacle_height o) / 2).

Definition spawnCoin (now : Z) (speedM : Q) : Rand (list Coin) :=
  roll <- random ;;
  if Qltb roll 0.005 then
    rs <- random ;;
    rv <- random ;;
    ry <- random ;;
    let side := pickSide rs in
    let coinValue := if Qltb rv 0.8 then 1%Z else 5%Z in
    retR [ mkCoin (timestampString now ++ "_coin")
             (mkVector2
                (match side with sideLeft => -30 | sideRight => SCREEN_WIDTH + 30 end)
                (ry * (SCREEN_HEIGHT - 200) + 100))
             (mkVector2
                (match side with
                 | sideLeft => speedM * 1.5
                 | sideRight => - speedM * 1.5
                 end)
                0)
             15 coinValue ]
  else retR [].

Definition touchesCoin (b : Ball) (c : Coin) : bool :=
  distanceLt
    (xOf (ball_position b) - xOf (coin_position c))
    (yOf (ball_position b) - yOf (coin_position c))
    (ballRadius BASE_CONFIG + coin_radius c).

(** The collection loop runs from the last coin to the first; a coin that
    the ball touches is spliced out and its value added to the total. *)
Fixpoint collectCoins (b : Ball) (cs : list Coin) (total : Z)
  : list Coin * Z :=
  match cs with
  | [] => ([], total)
  | c :: rest =>
      let (rest', total') := collectCoins b rest total in
      if touchesCoin b c then (rest', (total' + coin_value c)%Z)
      else (c :: rest', total')
  end.

(** The updater that [updatePhysics] hands to [setGameState], in two parts:
    everything up to the spawning of a coin, then the collection loop. *)
Definition physicsBeforeCollection (now : Z) (prevState : GameState)
  : Rand GameState :=
  let (speedM, spawnM) := getDifficultyMultiplier (score prevState) in
  let b := stepBall (ball prevState) in
  let s1 := with_ball b prevState in
  let s2 := if onGround b then with_currentScreen gameOver s1 else s1 in
  let moved := updateObstacles (obstacles s2) in
  spawned <- spawnObstacle now speedM spawnM ;;
  let s3 := with_obstacles (moved ++ spawned) s2 in
  let s4 := if existsb (hitsObstacle b) (obstacles s3)
            then with_currentScreen gameOver s3 else s3 in
  let s5 := with_score (score s4 + 1)%Z s4 in
  let movedCoins := updateCoins (coins s5) in
  spawnedCoins <- spawnCoin now speedM ;;
  retR (with_coins (movedCoins ++ spawnedCoins) s5).

Definition coinCollection (newState : GameState) : GameState :=
  let (kept, total) :=
    collectCoins (ball newState) (coins newState) (collectedCoins newState) in
  with_collectedCoins total (with_coins kept newState).

Definition physicsUpdater (now : Z) (prevState : GameState) : Rand GameState :=
  newState <- physicsBeforeCollection now prevState ;;
  retR (coinCollection newState).

Definition updatePhysics (now : Z) (gameState : GameState) : Rand GameState :=
  if decide (currentScreen gameState = playing)
  then physicsUpdater now gameState
  else retR gameState.

(** ** Input mapper ([handleTouch]) *)

Definition horizontalForceFor (deltaX : Q) : Q :=
  if Qltb 0 deltaX then 2 else if Qltb deltaX 0 then -2 else 0.

Definition touchUpdater (touchX touchY : Q) (prevState : GameState)
  : GameState :=
  let ballPos := ball_position (ball prevState) in
  let upwardForce := -5 in
  let deltaX := touchX - xOf ballPos in
  let horizontalForce := horizontalForceFor deltaX in
  let newVelX := xOf (ball_velocity (ball prevState)) * 0.7 + horizontalForce in
  let newVelY := upwardForce in
  let maxVelX := 4 in
  let maxVelY := 8 in
  let clampedVelX := Qmax (- maxVelX) (Qmin maxVelX newVelX) in
  let clampedVelY := Qmax (- maxVelY) (Qmin maxVelY newVelY) in
  with_ball
    (mkBall ballPos (mkVector2 clampedVelX clampedVelY)
       (ball_radius (ball prevState)))
    prevState.

Definition handleTouch (touchX touchY : Q) (gameState : GameState)
  : GameState :=
  if decide (currentScreen gameState = playing)
  then touchUpdater touchX touchY gameState
  else gameState.

(** ** Progression ledger *)

(** The state [useState] starts from. *)
Definition initialGameState : GameState :=
  mkGameState
    (mkBall (mkVector2 (SCREEN_WIDTH / 2) (SCREEN_HEIGHT / 2)) (mkVector2 0 0)
       (ballRadius BASE_CONFIG))
    [] [] 0 0 0 menu "classic" ["classic"] false [] "Player" byTime
    DAILY_REWARDS "" 0 INITIAL_ACHIEVEMENTS 0 false.

(** A handler commits a state and may leave behind callbacks scheduled with
    [setTimeout(..., 0)]; the only such callback in the engine assigns
    [collectedCoins], so a pending callback is the value it assigns. *)
Definition Outcome : Type := GameState * list Z.

Definition settle (o : Outcome) : GameState :=
  fold_left (fun s newCoins => with_collectedCoins newCoins s) (snd o) (fst o).

Definition andThen (o : Outcome) (h : GameState -> Outcome) : Outcome :=
  let (s', more) := h (fst o) in (s', snd o ++ more).

(** The callback [updateAchievementProgress] maps over the achievements;
    [balance] is [prev.collectedCoins]. *)
Definition achievementStep (achievementId : string) (sample : Z) (balance : Z)
    (achievement : Achievement) : Achievement * list Z :=
  if bool_decide (achievement_id achievement = achievementId)
     && negb (completed achievement) then
    let newProgress := Z.max (progress achievement) sample in
    let isCompleted := (requirement achievement <=? newProgress)%Z in
    (mkAchievement (achievement_id achievement) (title achievement)
       (achievement_description achievement) (requirement achievement)
       newProgress isCompleted (reward achievement)
       (achievement_type achievement),
     if isCompleted && negb (completed achievement)
     then [(balance + reward achievement)%Z] else [])
  else (achievement, []).

Definition updateAchievementProgress (achievementId : string) (sample : Z)
    (prev : GameState) : Outcome :=
  let stepped :=
    map (achievementStep achievementId sample (collectedCoins prev))
      (achievements prev) in
  (with_achievements (map fst stepped) prev, concat (map snd stepped)).

Definition resetRewards : list DailyReward :=
  map (fun r => mkDailyReward (reward_day r) (reward_coins r)
                  (reward_description r) false) DAILY_REWARDS.

Definition claimDailyReward (day : Z) (gameState : GameState) : GameState :=
  let rewardIndex := (day - 1)%Z in
  if (0 <=? rewardIndex)%Z
     && (rewardIndex <? Z.of_nat (length (dailyRewards gameState)))%Z then
    match dailyRewards gameState !! Z.to_nat rewardIndex with
    | Some r =>
        if negb (claimed r) && (day <=? currentStreak gameState)%Z then
          with_collectedCoins (collectedCoins gameState + reward_coins r)%Z
            (with_dailyRewards
               (<[Z.to_nat rewardIndex :=
                    mkDailyReward (reward_day r) (reward_coins r)
                      (reward_description r) true]> (dailyRewards gameState))
               gameState)
        else gameState
    | None => gameState
    end
  else gameState.

Definition startGame (prev : GameState) : Outcome :=
  let newTotalGamesPlayed := (totalGamesPlayed prev + 1)%Z in
  let started :=
    with_canWatchAdToContinue true
      (with_totalGamesPlayed newTotalGamesPlayed
         (with_currentScreen playing
            (with_score 0
               (with_coins []
                  (with_obstacles []
                     (with_ball
                        (mkBall
                           (mkVector2 (SCREEN_WIDTH / 2) (SCREEN_HEIGHT / 2))
                           (mkVector2 0 0) (ballRadius BASE_CONFIG))
                        prev)))))) in
  andThen
    (updateAchievementProgress "first_game" newTotalGamesPlayed started)
    (updateAchievementProgress "play_10_games" newTotalGamesPlayed).

Definition restartGame : GameState -> Outcome := startGame.

Definition watchAdToContinue (prev : GameState) : GameState :=
  with_canWatchAdToContinue false
    (with_currentScreen playing
       (with_ball
          (mkBall (mkVector2 (SCREEN_WIDTH / 2) (SCREEN_HEIGHT / 2))
             (mkVector2 0 (-3)) (ballRadius BASE_CONFIG))
          prev)).

(** [submitScore]: the leaderboard it computes from the rendered state. *)
Definition updatedLeaderboard (currentTime finalScore coinsEarned : Z)
    (gameState : GameState) : list LeaderboardEntry :=
  let name := playerName gameState in
  let skinUsed := selectedSkin gameState in
  match list_find (fun e => entry_playerName e = name) (leaderboard gameState)
  with
  | Some (existingPlayerIndex, existingEntry) =>
      <[existingPlayerIndex :=
          mkLeaderboardEntry (entry_id existingEntry)
            (entry_playerName existingEntry)
            (Z.max (bestTime existingEntry) finalScore)
            (Z.max (bestCoins existingEntry) coinsEarned)
            (if (bestTime existingEntry <? finalScore)%Z
             then currentTime else bestTimeTimestamp existingEntry)
            (if (bestCoins existingEntry <? coinsEarned)%Z
             then currentTime else bestCoinsTimestamp existingEntry)
            (if (bestTime existingEntry <? finalScore)%Z
             then skinUsed else bestTimeSkin existingEntry)
            (if (bestCoins existingEntry <? coinsEarned)%Z
             then skinUsed else bestCoinsSkin existingEntry)]>
        (leaderboard gameState)
  | None =>
      leaderboard gameState ++
      [ mkLeaderboardEntry (timestampString currentTime) name finalScore
          coinsEarned currentTime currentTime skinUsed skinUsed ]
  end.

Definition submitScore (currentTime finalScore coinsEarned : Z)
    (gameState : GameState) : GameState :=
  with_leaderboard
    (updatedLeaderboard currentTime finalScore coinsEarned gameState) gameState.

Definition purchaseSkinWithCoins (skinId : string) (gameState : GameState)
  : GameState :=
  match List.find (fun s => bool_decide (skin_id s = skinId)) BALL_SKINS with
  | Some skin =>
      if (coinPrice skin <=? collectedCoins gameState)%Z
         && negb (bool_decide (skinId ∈ unlockedSkins gameState)) then
        with_selectedSkin skinId
          (with_unlockedSkins (unlockedSkins gameState ++ [skinId])
             (with_collectedCoins
                (collectedCoins gameState - coinPrice skin)%Z gameState))
      else gameState
  | None => gameState
  end.

Definition selectSkin (skinId : string) (gameState : GameState) : GameState :=
  if bool_decide (skinId ∈ unlockedSkins gameState)
  then with_selectedSkin skinId gameState else gameState.

(** The effect that runs when the screen is [gameOver]: the pair it hands
    to [submitScore], then the whole handler. *)
Definition gameOverSubmission (gameState : GameState) : Z * Z :=
  let finalScore := (score gameState / 60)%Z in
  let coinsThisRound := collectedCoins gameState in
  (finalScore, coinsThisRound).

Definition gameOverEffect (now : Z) (gameState : GameState) : Outcome :=
  if decide (currentScreen gameState = gameOver) then
    let (finalScore, coinsThisRound) := gameOverSubmission gameState in
    let s1 := submitScore now finalScore coinsThisRound gameState in
    let s2 := if (highScore gameState <? finalScore)%Z
              then with_highScore finalScore s1 else s1 in
    andThen (andThen (andThen (andThen
      (updateAchievementProgress "survive_60s" finalScore s2)
      (updateAchievementProgress "survive_120s" finalScore))
      (updateAchievementProgress "collect_50_coins" coinsThisRound))
      (updateAchievementProgress "collect_100_one_game" coinsThisRound))
      (updateAchievementProgress "collect_3_skins"
         (Z.of_nat (length (unlockedSkins gameState))))
  else (gameState, []).

(** ** Runs

    What happens to a game between [startGame] and the game-over screen: a
    tick of the timer, a tap, or the continue bought with an ad.  The effect
    of the game-over screen ([gameOverEffect]) is no input of a run: it runs
    after the tick that ends the run, so where a run goes on with a
    continue, the coin balance of the application has also been written by
    that effect before the continue. *)

Inductive Input :=
  | Tick (now : Z)
  | Tap (touchX touchY : Q)
  | Continue.

Definition step (i : Input) (s : GameState) : Rand GameState :=
  match i with
  | Tick now => updatePhysics now s
  | Tap x y => retR (handleTouch x y s)
  | Continue => retR (watchAdToContinue s)
  end.

Fixpoint play (inputs : list Input) (s : GameState) : Rand GameState :=
  match inputs with
  | [] => retR s
  | i :: rest => s' <- step i s ;; play rest s'
  end.

(** The coins a tick collects, as its collection loop sees them. *)
Definition collectedBy (newState : GameState) : list Coin :=
  List.filter (touchesCoin (ball newState)) (coins newState).

Definition sumValues (cs : list Coin) : Z :=
  fold_right (fun c acc => (coin_value c + acc)%Z) 0%Z cs.

Definition tickGain (now : Z) (s : GameState) : Rand Z :=
  if decide (currentScreen s = playing) then
    newState <- physicsBeforeCollection now s ;;
    retR (sumValues (collectedBy newState))
  else retR 0%Z.

(** The coins a sequence of inputs collects: the sum over its ticks. *)
Fixpoint runCoins (inputs : list Input) (s : GameState) : Rand Z :=
  match inputs with
  | [] => retR 0%Z
  | i :: rest =>
      fun rnd n =>
        let gained := match i with
                      | Tick now => fst (tickGain now s rnd n)
                      | _ => 0%Z
                      end in
        let (s', n') := step i s rnd n in
        let (more, n'') := runCoins rest s' rnd n' in
        ((gained + more)%Z, n'')
  end.

(** Several updates, one after the other, as one achievement sees them:
    the id and the sample of each call and the balance at that moment. *)
Fixpoint achievementRun (updates : list (string * Z * Z)) (a : Achievement)
  : Achievement * list Z :=
  match updates with
  | [] => (a, [])
  | (achievementId, sample, balance) :: rest =>
      let (a', grants) := achievementStep achievementId sample balance a in
      let (a'', more) := achievementRun rest a' in
      (a'', grants ++ more)
  end.

(** Several submissions, each with its clock, time and coins. *)
Fixpoint submitAll (submissions : list (Z * Z * Z)) (s : GameState)
  : GameState :=
  match submissions with
  | [] => s
  | (currentTime, finalScore, coinsEarned) :: rest =>
      submitAll rest (submitScore currentTime finalScore coinsEarned s)
  end.

End Engine.

(** ** A first run on a 375 x 667 screen

    The player taps left of the ball before every second tick.  The second
    draw of the oracle spawns a coin of value 5 on the left, the twelfth a
    cone; every other draw spawns nothing. *)

Definition firstRunDraws : list Q :=
  [ 0.99; 0.001; 0.1; 0.9; 0.163; 0.99; 0.99; 0.99; 0.99; 0.99; 0.99;
    0.001; 0.1; 0.1; 0.068 ].

Definition firstRunOracle : nat -> Q := fun k => nth k firstRunDraws 0.99.

Definition firstRunInputs : list Input :=
  concat (repeat [Tap 0 0; Tick 1700000000000; Tick 1700000000000] 19).

Definition firstRunStart : GameState :=
  settle (startGame 375 667 (initialGameState 375 667)).

Definition firstRunEnd : GameState :=
  fst (play 375 667 firstRunInputs firstRunStart firstRunOracle 0%nat).

Definition afterFirstRun : GameState :=
  settle (gameOverEffect 1700000000600 firstRunEnd).

(** ** Further states the examples start from *)

(** Right after [startGame] on a 374 x 800 screen: the ball rests at
    (187, 400). *)
Definition restState : GameState :=
  settle (startGame 374 800 (initialGameState 374 800)).

(** Right after [startGame] on a 400 x 800 screen: the ball rests at
    (200, 400); then two taps at x = 300. *)
Definition tapStart : GameState :=
  settle (startGame 400 800 (initialGameState 400 800)).

Definition afterTwoTaps : GameState :=
  handleTouch 300 0 (handleTouch 300 0 tapStart).

(** A player with 120 coins and the classic skin only. *)
Definition shopper : GameState :=
  with_collectedCoins 120 (initialGameState 375 667).

(** * More of the engine

    The handlers and the pieces of the screens that compute something,
    beside the ones above. *)

(** ** Counting the inputs of a run *)

Definition isTick (i : Input) : bool :=
  match i with Tick _ => true | _ => false end.

Definition isContinue (i : Input) : bool :=
  match i with Continue => true | _ => false end.

Definition countTicks (inputs : list Input) : Z :=
  Z.of_nat (length (List.filter isTick inputs)).

(** The rectangle an obstacle is drawn in: [left], [top], [width] and
    [height] of its view. *)
Definition insideBox (o : Obstacle) (px py : Q) : Prop :=
  xOf (obstacle_position o) <= px <= xOf (obstacle_position o) + obstacle_width o /\
  yOf (obstacle_position o) <= py <= yOf (obstacle_position o) + obstacle_height o.

(** What every obstacle and every coin of a run looks like. *)
(** The horizontal speed an entity is given when it spawns at the score
    [ticks]: 1.5 times the speed multiplier of that score. *)
Definition spawnSpeedAt (ticks : Z) (speed : Q) : Prop :=
  (0 <= ticks)%Z /\ speed == 1.5 * speedMultiplier ticks.

Definition wellFormedObstacle (o : Obstacle) : Prop :=
  obstacle_width o = widthOf (obstacle_type o) /\
  obstacle_height o = heightOf (obstacle_type o) /\
  yOf (obstacle_velocity o) == 0 /\
  exists ticks, spawnSpeedAt ticks (Qabs (xOf (obstacle_velocity o))).

Definition wellFormedCoin (c : Coin) : Prop :=
  coin_radius c = 15 /\
  (coin_value c = 1 \/ coin_value c = 5)%Z /\
  yOf (coin_velocity c) == 0 /\
  exists ticks, spawnSpeedAt ticks (Qabs (xOf (coin_velocity c))).

Definition wellFormedWorld (s : GameState) : Prop :=
  (0 <= score s)%Z /\
  Forall wellFormedObstacle (obstacles s) /\
  Forall wellFormedCoin (coins s).

(** ** The store and the navigation *)

(** The cash purchase unlocks without a test of its own. *)
Definition purchaseSkinWithCash (skinId : string) (gameState : GameState)
  : GameState :=
  with_selectedSkin skinId
    (with_unlockedSkins (unlockedSkins gameState ++ [skinId]) gameState).

Definition returnToMenu (prev : GameState) : GameState :=
  with_currentScreen menu prev.

Definition goToStore (prev : GameState) : GameState :=
  with_currentScreen store prev.

Definition goToLeaderboard (prev : GameState) : GameState :=
  with_currentScreen leaderboardScreen prev.

Definition goToAchievements (prev : GameState) : GameState :=
  with_currentScreen achievementsScreen prev.

(** What the player can do in the store. *)
Inductive StoreAction :=
  | BuyWithCoins (skinId : string)
  | BuyWithCash (skinId : string)
  | Select (skinId : string).

Definition storeStep (a : StoreAction) (s : GameState) : GameState :=
  match a with
  | BuyWithCoins k => purchaseSkinWithCoins k s
  | BuyWithCash k => purchaseSkinWithCash k s
  | Select k => selectSkin k s
  end.

Definition paysWithCoins (a : StoreAction) : bool :=
  match a with BuyWithCash _ => false | _ => true end.

(** The coin price of a skin of the catalogue, 0 for any other id. *)
Definition priceOf (skinId : string) : Z :=
  match List.find (fun k => bool_decide (skin_id k = skinId)) BALL_SKINS with
  | Some skin => coinPrice skin
  | None => 0%Z
  end.

Definition ownedValue (skins : list string) : Z :=
  fold_right (fun k acc => (priceOf k + acc)%Z) 0%Z skins.

(** ** The daily rewards on the menu *)

(** [canClaim] of the reward at [index], as the menu computes it. *)
Definition canClaim (index : nat) (r : DailyReward) (gameState : GameState)
  : bool :=
  let day := (Z.of_nat index + 1)%Z in
  let isAvailable := (day <=? currentStreak gameState)%Z in
  let isClaimed := claimed r in
  isAvailable && negb isClaimed.

(** The coins of the rewards not claimed yet. *)
Definition unclaimedCoins (rewards : list DailyReward) : Z :=
  fold_right (fun r acc => ((if claimed r then 0 else reward_coins r) + acc)%Z)
    0%Z rewards.

(** ** The game-over screen *)

(** The condition under which the screen shows "NEW HIGH SCORE". *)
Definition showsNewHighScore (gameState : GameState) : bool :=
  (score gameState / 60 =? highScore gameState)%Z
  && (0 <? highScore gameState)%Z.

(** ** The leaderboard screen *)

Definition metricOf (category : LeaderboardCategory) (e : LeaderboardEntry)
  : Z :=
  match category with byTime => bestTime e | byCoins => bestCoins e end.

(** The comparator handed to [sort]: [b.metric - a.metric]. *)
Definition compareEntries (category : LeaderboardCategory)
    (a b : LeaderboardEntry) : Z :=
  (metricOf category b - metricOf category a)%Z.

(** [Array.prototype.sort] with a comparator is a stable sort: [a] stays
    before [b] unless the comparator is positive on [(a, b)].  Insertion
    from the right end gives that order. *)
Fixpoint insertBy {A} (compare : A -> A -> Z) (x : A) (l : list A) : list A :=
  match l with
  | [] => [x]
  | y :: rest =>
      if (compare x y <=? 0)%Z then x :: y :: rest
      else y :: insertBy compare x rest
  end.

Definition sortBy {A} (compare : A -> A -> Z) (l : list A) : list A :=
  fold_right (insertBy compare) [] l.

Definition sortedLeaderboard (gameState : GameState) : list LeaderboardEntry :=
  take 10
    (sortBy (compareEntries (leaderboardCategory gameState))
       (leaderboard gameState)).

(** ** The achievements screen *)

(** The width of the progress bar, in percent.  The quotient is the one of
    [Q]; the source divides by zero when [requirement] is 0, which no
    achievement of the engine has. *)
Definition progressPercentage (achievement : Achievement) : Q :=
  Qmin
    ((inject_Z (progress achievement) / inject_Z (requirement achievement))
     * 100)
    100.

Definition countCompleted (l : list Achievement) : nat :=
  length (List.filter completed l).

(** ** Loading the saved data *)

(** The values of the twelve fields as the loader computes them from the
    store, each after its parse and its default. *)
Record SavedData := mkSavedData {
  savedHighScore : Z;
  savedCoins : Z;
  savedSkins : list string;
  savedSelectedSkin : string;
  savedAdsRemoved : bool;
  savedLeaderboard : list LeaderboardEntry;
  savedPlayerName : string;
  savedDailyRewards : list DailyReward;
  savedLastLoginDate : string;
  savedCurrentStreak : Z;
  savedAchievements : list Achievement;
  savedTotalGamesPlayed : Z }.

Definition loadedState (d : SavedData) (prev : GameState) : GameState :=
  mkGameState (ball prev) (obstacles prev) (coins prev) (score prev)
    (savedHighScore d) (savedCoins d) (currentScreen prev)
    (savedSelectedSkin d) (savedSkins d) (savedAdsRemoved d)
    (savedLeaderboard d) (savedPlayerName d) (leaderboardCategory prev)
    (savedDailyRewards d) (savedLastLoginDate d) (savedCurrentStreak d)
    (savedAchievements d) (savedTotalGamesPlayed d)
    (canWatchAdToContinue prev).

(** [checkDailyLoginReward] with the two states it deals with kept apart:
    it reads the last login and the streak in [rendered], the [gameState]
    of the render that created the handler, and its updaters write to
    [prev], the state of the moment.  [today] and [yesterdayString] are the
    two date strings the handler computes from the clock. *)
Definition checkDailyLoginRewardIn (rendered : GameState)
    (today yesterdayString : string) (prev : GameState) : Outcome :=
  let lastLogin := lastLoginDate rendered in
  if bool_decide (lastLogin <> today) then
    let incremented :=
      if bool_decide (lastLogin = yesterdayString)
      then (currentStreak rendered + 1)%Z else 1%Z in
    if (7 <? incremented)%Z then
      let newStreak := 1%Z in
      updateAchievementProgress "login_streak" newStreak
        (with_currentStreak newStreak
           (with_lastLoginDate today (with_dailyRewards resetRewards prev)))
    else
      let newStreak := incremented in
      updateAchievementProgress "login_streak" newStreak
        (with_currentStreak newStreak (with_lastLoginDate today prev))
  else (prev, []).

Section Startup.

Variables SCREEN_WIDTH SCREEN_HEIGHT : Q.

(** The effect that runs once after the first render: it writes the loaded
    fields and then calls the [checkDailyLoginReward] of that first render,
    whose [gameState] is the initial state. *)
Definition loadSavedData (d : SavedData) (today yesterdayString : string)
    (prev : GameState) : Outcome :=
  checkDailyLoginRewardIn (initialGameState SCREEN_WIDTH SCREEN_HEIGHT)
    today yesterdayString (loadedState d prev).

End Startup.

(** * The first engine

    The engine the game started from: the same ball and obstacles, with no
    coins, no difficulty curve and no progression, and two flags in place of
    the screen. *)

Module Basic.

Record GameState := mkGameState {
  ball : Ball;
  obstacles : list Obstacle;
  score : Z;
  isPlaying : bool;
  gameOver : bool }.

Section Engine.

Variables SCREEN_WIDTH SCREEN_HEIGHT : Q.

Definition GAME_CONFIG : GameConfig :=
  mkGameConfig 0.3 25 SCREEN_WIDTH SCREEN_HEIGHT 2 0.015.

Definition initialGameState : GameState :=
  mkGameState
    (mkBall (mkVector2 (SCREEN_WIDTH / 2) (SCREEN_HEIGHT / 2)) (mkVector2 0 0)
       (ballRadius GAME_CONFIG))
    [] 0 true false.

Definition stepBall (b : Ball) : Ball :=
  let v1 := mkVector2 (xOf (ball_velocity b))
              (yOf (ball_velocity b) + gravity GAME_CONFIG) in
  let p1 := mkVector2 (xOf (ball_position b) + xOf v1)
              (yOf (ball_position b) + yOf v1) in
  let v2 := mkVector2 (xOf v1 * 0.95) (yOf v1 * 0.99) in
  let (p3, v3) :=
    if Qleb (xOf p1) (ballRadius GAME_CONFIG)
    then (mkVector2 (ballRadius GAME_CONFIG) (yOf p1),
          mkVector2 (Qabs (xOf v2) * 0.7) (yOf v2))
    else (p1, v2) in
  let (p4, v4) :=
    if Qleb (SCREEN_WIDTH - ballRadius GAME_CONFIG) (xOf p3)
    then (mkVector2 (SCREEN_WIDTH - ballRadius GAME_CONFIG) (yOf p3),
          mkVector2 (- Qabs (xOf v3) * 0.7) (yOf v3))
    else (p3, v3) in
  mkBall p4 v4 (ball_radius b).

Definition spawnObstacle (now : Z) : Rand (list Obstacle) :=
  roll <- random ;;
  if Qltb roll (spawnRate GAME_CONFIG) then
    rs <- random ;;
    rt <- random ;;
    ry <- random ;;
    let side := pickSide rs in
    let obstacleType := pickType rt in
    retR [ mkObstacle (timestampString now)
             (mkVector2
                (match side with sideLeft => -50 | sideRight => SCREEN_WIDTH + 50 end)
                (ry * (SCREEN_HEIGHT - 200) + 100))
             (mkVector2
                (match side with
                 | sideLeft => obstacleSpeed GAME_CONFIG
                 | sideRight => - obstacleSpeed GAME_CONFIG
                 end)
                0)
             obstacleType (widthOf obstacleType) (heightOf obstacleType) ]
  else retR [].

Definition hitsObstacle (b : Ball) (o : Obstacle) : bool :=
  distanceLt
    (xOf (ball_position b) - (xOf (obstacle_position o) + obstacle_width o / 2))
    (yOf (ball_position b) - (yOf (obstacle_position o) + obstacle_height o / 2))
    (ballRadius GAME_CONFIG + Qmin (obstacle_width o) (obstacle_height o) / 2).

Definition physicsUpdater (now : Z) (prevState : GameState) : Rand GameState :=
  let b := stepBall (ball prevState) in
  let grounded :=
    Qleb (SCREEN_HEIGHT - ballRadius GAME_CONFIG) (yOf (ball_position b)) in
  let moved := updateObstacles SCREEN_WIDTH SCREEN_HEIGHT (obstacles prevState) in
  spawned <- spawnObstacle now ;;
  let newObstacles := moved ++ spawned in
  let collided := existsb (hitsObstacle b) newObstacles in
  retR (mkGameState b newObstacles (score prevState + 1)%Z
          (if grounded || collided then false else isPlaying prevState)
          (if grounded || collided then true else gameOver prevState)).

Definition updatePhysics (now : Z) (gameState : GameState) : Rand GameState :=
  if negb (isPlaying gameState) || gameOver gameState
  then retR gameState
  else physicsUpdater now gameState.

Definition touchUpdater (touchX touchY : Q) (prevState : GameState)
  : GameState :=
  let ballPos := ball_position (ball prevState) in
  let upwardForce := -5 in
  let deltaX := touchX - xOf ballPos in
  let horizontalForce :=
    if Qltb 0 deltaX then 2 else if Qltb deltaX 0 then -2 else 0 in
  let newVelX := xOf (ball_velocity (ball prevState)) * 0.7 + horizontalForce in
  let newVelY := upwardForce in
  let maxVelX := 4 in
  let maxVelY := 8 in
  let clampedVelX := Qmax (- maxVelX) (Qmin maxVelX newVelX) in
  let clampedVelY := Qmax (- maxVelY) (Qmin maxVelY newVelY) in
  mkGameState
    (mkBall ballPos (mkVector2 clampedVelX clampedVelY)
       (ball_radius (ball prevState)))
    (obstacles prevState) (score prevState) (isPlaying prevState)
    (gameOver prevState).

Definition handleTouch (touchX touchY : Q) (gameState : GameState)
  : GameState :=
  if negb (isPlaying gameState) || gameOver gameState
  then gameState
  else touchUpdater touchX touchY gameState.

Definition restartGame : GameState := initialGameState.

Inductive Input :=
  | Tick (now : Z)
  | Tap (touchX touchY : Q)
  | Restart.

Definition step (i : Input) (s : GameState) : Rand GameState :=
  match i with
  | Tick now => updatePhysics now s
  | Tap x y => retR (handleTouch x y s)
  | Restart => retR restartGame
  end.

Fixpoint play (inputs : list Input) (s : GameState) : Rand GameState :=
  match inputs with
  | [] => retR s
  | i :: rest => s' <- step i s ;; play rest s'
  end.

End Engine.

End Basic.

(** ** States of the further examples *)

(** The end of a run of 7300 ticks, a little over two minutes, by a player
    who has played one game before. *)
Definition longRunEnd : GameState :=
  with_score 7300 (with_currentScreen gameOver firstRunStart).

(** What the store holds on the sixth day of a streak. *)
Definition savedOnSixthDay : SavedData :=
  mkSavedData 40 120 ["classic"] "classic" false [] "Player" DAILY_REWARDS
    "Sat Oct 31 2026" 5 INITIAL_ACHIEVEMENTS 12.


(** * Properties *)

(** ** Field updates

    Each update writes its own field and no other: reading the field back
    gives the value written, and writing back what the field holds changes
    nothing. *)

Ltac field_update_law :=
  intros; match goal with s : GameState |- _ => destruct s end;
  split; reflexivity.

Lemma with_ball_law v (s : GameState) :
  ball (with_ball v s) = v /\ with_ball (ball s) s = s.
Proof. field_update_law. Qed.

Lemma with_obstacles_law v (s : GameState) :
  obstacles (with_obstacles v s) = v /\ with_obstacles (obstacles s) s = s.
Proof. field_update_law. Qed.

Lemma with_coins_law v (s : GameState) :
  coins (with_coins v s) = v /\ with_coins (coins s) s = s.
Proof. field_update_law. Qed.

Lemma with_score_law v (s : GameState) :
  score (with_score v s) = v /\ with_score (score s) s = s.
Proof. field_update_law. Qed.

Lemma with_highScore_law v (s : GameState) :
  highScore (with_highScore v s) = v /\ with_highScore (highScore s) s = s.
Proof. field_update_law. Qed.

Lemma with_collectedCoins_law v (s : GameState) :
  collectedCoins (with_collectedCoins v s) = v /\ with_collectedCoins (collectedCoins s) s = s.
Proof. field_update_law. Qed.

Lemma with_currentScreen_law v (s : GameState) :
  currentScreen (with_currentScreen v s) = v /\ with_currentScreen (currentScreen s) s = s.
Proof. field_update_law. Qed.

Lemma with_selectedSkin_law v (s : GameState) :
  selectedSkin (with_selectedSkin v s) = v /\ with_selectedSkin (selectedSkin s) s = s.
Proof. field_update_law. Qed.

Lemma with_unlockedSkins_law v (s : GameState) :
  unlockedSkins (with_unlockedSkins v s) = v /\ with_unlockedSkins (unlockedSkins s) s = s.
Proof. field_update_law. Qed.

Lemma with_leaderboard_law v (s : GameState) :
  leaderboard (with_leaderboard v s) = v /\ with_leaderboard (leaderboard s) s = s.
Proof. field_update_law. Qed.

Lemma with_dailyRewards_law v (s : GameState) :
  dailyRewards (with_dailyRewards v s) = v /\ with_dailyRewards (dailyRewards s) s = s.
Proof. field_update_law. Qed.

Lemma with_lastLoginDate_law v (s : GameState) :
  lastLoginDate (with_lastLoginDate v s) = v /\ with_lastLoginDate (lastLoginDate s) s = s.
Proof. field_update_law. Qed.

Lemma with_currentStreak_law v (s : GameState) :
  currentStreak (with_currentStreak v s) = v /\ with_currentStreak (currentStreak s) s = s.
Proof. field_update_law. Qed.

Lemma with_achievements_law v (s : GameState) :
  achievements (with_achievements v s) = v /\ with_achievements (achievements s) s = s.
Proof. field_update_law. Qed.

Lemma with_totalGamesPlayed_law v (s : GameState) :
  totalGamesPlayed (with_totalGamesPlayed v s) = v /\ with_totalGamesPlayed (totalGamesPlayed s) s = s.
Proof. field_update_law. Qed.

Lemma with_canWatchAdToContinue_law v (s : GameState) :
  canWatchAdToContinue (with_canWatchAdToContinue v s) = v /\ with_canWatchAdToContinue (canWatchAdToContinue s) s = s.
Proof. field_update_law. Qed.

(** ** Comparisons and the random monad *)

Lemma Qltb_lt (a b : Q) : Qltb a b = true <-> a < b.
Proof.
  unfold Qltb. rewrite negb_true_iff, <- not_true_iff_false, Qle_bool_iff.
  split; [apply Qnot_le_lt | apply Qlt_not_le].
Qed.

Lemma Qltb_ge (a b : Q) : Qltb a b = false <-> b <= a.
Proof.
  unfold Qltb. rewrite negb_false_iff. apply Qle_bool_iff.
Qed.

Lemma Qleb_le (a b : Q) : Qleb a b = true <-> a <= b.
Proof. apply Qle_bool_iff. Qed.

Lemma Qmin_cases (a b : Q) :
  (a <= b /\ Qmin a b == a) \/ (b <= a /\ Qmin a b == b).
Proof.
  destruct (Qlt_le_dec b a) as [Hlt | Hle].
  - right. split; [lra | apply Q.min_r; lra].
  - left. split; [exact Hle | apply Q.min_l; exact Hle].
Qed.

Lemma Qmax_cases (a b : Q) :
  (a <= b /\ Qmax a b == b) \/ (b <= a /\ Qmax a b == a).
Proof.
  destruct (Qlt_le_dec b a) as [Hlt | Hle].
  - right. split; [lra | apply Q.max_l; lra].
  - left. split; [exact Hle | apply Q.max_r; exact Hle].
Qed.

(** ** The difficulty curve *)

Lemma inject_Z_le (a b : Z) : (a <= b)%Z -> inject_Z a <= inject_Z b.
Proof. intros Hab. rewrite <- Zle_Qle. exact Hab. Qed.

Lemma speed_ramp (x : Q) : 1 + (x / 60 / 120) * 0.8 == 1 + x * (1 # 9000).
Proof. field. Qed.

Lemma spawn_ramp (x : Q) : 1 + (x / 60 / 90) * 2 == 1 + x * (1 # 2700).
Proof. field. Qed.

(** Where the ramps meet their caps: after 10800 ticks (three minutes) for
    the speed, after 6750 ticks for the spawn rate. *)
Lemma difficulty_caps_reached (ticks : Z) :
  ((ticks <= 10800)%Z -> speedMultiplier ticks == 1 + inject_Z ticks * (1 # 9000)) /\
  ((10800 <= ticks)%Z -> speedMultiplier ticks == 2.2) /\
  ((ticks <= 6750)%Z -> spawnMultiplier ticks == 1 + inject_Z ticks * (1 # 2700)) /\
  ((6750 <= ticks)%Z -> spawnMultiplier ticks == 3.5).
Proof.
  unfold speedMultiplier, spawnMultiplier, getDifficultyMultiplier; cbn [fst snd].
  rewrite speed_ramp, spawn_ramp.
  repeat split; intros Hle; apply inject_Z_le in Hle.
  - apply Q.min_l. change (inject_Z 10800) with 10800 in Hle. lra.
  - apply Q.min_r. change (inject_Z 10800) with 10800 in Hle. lra.
  - apply Q.min_l. change (inject_Z 6750) with 6750 in Hle. lra.
  - apply Q.min_r. change (inject_Z 6750) with 6750 in Hle. lra.
Qed.

(** C5.  The two multipliers are the capped linear ramps of the elapsed
    seconds [t = scoreTicks / 60]; both grow with the score and stay below
    their caps, 2.2 and 3.5. *)
Theorem difficulty_curve (ticks later : Z) :
  (0 <= ticks)%Z -> (ticks <= later)%Z ->
  let t := inject_Z ticks / 60 in
  speedMultiplier ticks == Qmin (1 + (t / 120) * 0.8) 2.2 /\
  spawnMultiplier ticks == Qmin (1 + (t / 90) * 2) 3.5 /\
  speedMultiplier ticks <= speedMultiplier later /\
  spawnMultiplier ticks <= spawnMultiplier later /\
  speedMultiplier ticks <= 2.2 /\
  spawnMultiplier ticks <= 3.5.
Proof.
  intros _ Hle t.
  pose proof (inject_Z_le _ _ Hle) as Hq.
  unfold speedMultiplier, spawnMultiplier, getDifficultyMultiplier; cbn [fst snd].
  fold t.
  repeat split; try reflexivity.
  - apply Q.min_le_compat_r. subst t. rewrite !speed_ramp. lra.
  - apply Q.min_le_compat_r. subst t. rewrite !spawn_ramp. lra.
  - apply Q.le_min_r.
  - apply Q.le_min_r.
Qed.

(** ** What a tick does to each field *)

Section TickFacts.

Variables W H : Q.

Ltac split_ifs :=
  repeat match goal with
         | |- context [if ?c then _ else _] => destruct c; cbn
         end.

Lemma before_collection_fields (now : Z) (s : GameState) (rnd : nat -> Q)
    (n : nat) :
  let sp := speedMultiplier (score s) in
  let sw := spawnMultiplier (score s) in
  let spawned := spawnObstacle W H now sp sw rnd n in
  let spawnedCoins := spawnCoin W H now sp rnd (snd spawned) in
  let s' := fst (physicsBeforeCollection W H now s rnd n) in
  ball s' = stepBall W H (ball s) /\
  obstacles s' = updateObstacles W H (obstacles s) ++ fst spawned /\
  coins s' = updateCoins W H (coins s) ++ fst spawnedCoins /\
  score s' = (score s + 1)%Z /\
  collectedCoins s' = collectedCoins s.
Proof.
  cbv zeta.
  unfold physicsBeforeCollection, speedMultiplier, spawnMultiplier,
    getDifficultyMultiplier, bindR; cbn [fst snd].
  destruct (spawnObstacle W H now _ _ rnd n) as [os n1]; cbn [fst snd].
  destruct (spawnCoin W H now _ rnd n1) as [cs n2]; cbn [fst snd].
  unfold retR; cbn [fst snd].
  repeat split; split_ifs; reflexivity.
Qed.

Lemma collectCoins_spec (b : Ball) (cs : list Coin) (total : Z) :
  collectCoins W H b cs total =
    (List.filter (fun c => negb (touchesCoin W H b c)) cs,
     (total + sumValues (List.filter (touchesCoin W H b) cs))%Z).
Proof.
  induction cs as [| c rest IH]; cbn.
  - apply (f_equal2 pair); [reflexivity | lia].
  - rewrite IH.
    destruct (touchesCoin W H b c); cbn.
    all: apply (f_equal2 pair); try reflexivity.
    unfold sumValues. lia.
Qed.

Lemma coinCollection_fields (s : GameState) :
  ball (coinCollection W H s) = ball s /\
  obstacles (coinCollection W H s) = obstacles s /\
  coins (coinCollection W H s) =
    List.filter (fun c => negb (touchesCoin W H (ball s) c)) (coins s) /\
  score (coinCollection W H s) = score s /\
  currentScreen (coinCollection W H s) = currentScreen s /\
  collectedCoins (coinCollection W H s) =
    (collectedCoins s + sumValues (collectedBy W H s))%Z.
Proof.
  unfold coinCollection, collectedBy. rewrite collectCoins_spec. cbn.
  repeat split.
Qed.

Lemma physicsUpdater_unfold (now : Z) (s : GameState) (rnd : nat -> Q)
    (n : nat) :
  fst (physicsUpdater W H now s rnd n) =
    coinCollection W H (fst (physicsBeforeCollection W H now s rnd n)).
Proof.
  unfold physicsUpdater, bindR.
  destruct (physicsBeforeCollection W H now s rnd n) as [s' n']. reflexivity.
Qed.

Lemma updatePhysics_playing (now : Z) (s : GameState) :
  currentScreen s = playing ->
  updatePhysics W H now s = physicsUpdater W H now s.
Proof.
  intros Hp. unfold updatePhysics. destruct (decide _); [reflexivity | easy].
Qed.

Lemma updatePhysics_idle (now : Z) (s : GameState) :
  currentScreen s <> playing -> updatePhysics W H now s = retR s.
Proof.
  intros Hp. unfold updatePhysics. destruct (decide _); [easy | reflexivity].
Qed.

Lemma updatePhysics_ball (now : Z) (s : GameState) (rnd : nat -> Q) (n : nat) :
  currentScreen s = playing ->
  ball (fst (updatePhysics W H now s rnd n)) = stepBall W H (ball s).
Proof.
  intros Hp. rewrite updatePhysics_playing by exact Hp.
  rewrite physicsUpdater_unfold.
  destruct (coinCollection_fields (fst (physicsBeforeCollection W H now s rnd n)))
    as (-> & _).
  apply before_collection_fields.
Qed.

(** The radius is carried along by every statement of the ball update. *)
Lemma stepBall_radius (b : Ball) : ball_radius (stepBall W H b) = ball_radius b.
Proof.
  unfold stepBall, rightBoundary, leftBoundary.
  split_ifs; reflexivity.
Qed.

(** The walls touch neither the height nor the vertical velocity. *)
Lemma stepBall_vertical (b : Ball) :
  let g := applyGravity W H b in
  yOf (ball_position (stepBall W H b)) = yOf (ball_position b) + yOf (ball_velocity g) /\
  yOf (ball_velocity (stepBall W H b)) = yOf (ball_velocity g) * 0.99.
Proof.
  unfold stepBall, rightBoundary, leftBoundary.
  split_ifs; split; reflexivity.
Qed.

End TickFacts.

(** ** The ball: one tick, one tap, a whole run *)

Section BallFacts.

Variables W H : Q.

Lemma handleTouch_playing (x y : Q) (s : GameState) :
  currentScreen s = playing -> handleTouch x y s = touchUpdater x y s.
Proof.
  intros Hp. unfold handleTouch. destruct (decide _); [reflexivity | easy].
Qed.

Lemma handleTouch_radius (x y : Q) (s : GameState) :
  ball_radius (ball (handleTouch x y s)) = ball_radius (ball s).
Proof. unfold handleTouch. destruct (decide _); reflexivity. Qed.

Lemma handleTouch_collectedCoins (x y : Q) (s : GameState) :
  collectedCoins (handleTouch x y s) = collectedCoins s.
Proof. unfold handleTouch. destruct (decide _); reflexivity. Qed.

Lemma updatePhysics_radius (now : Z) (s : GameState) (rnd : nat -> Q)
    (n : nat) :
  ball_radius (ball (fst (updatePhysics W H now s rnd n))) = ball_radius (ball s).
Proof.
  destruct (decide (currentScreen s = playing)) as [Hp | Hp].
  - rewrite updatePhysics_ball by exact Hp. apply stepBall_radius.
  - rewrite updatePhysics_idle by exact Hp. reflexivity.
Qed.

Lemma settle_ball (o : Outcome) : ball (settle o) = ball (fst o).
Proof.
  destruct o as [s ds]. unfold settle; cbn [fst snd].
  revert s. induction ds as [| d ds IH]; intros s; cbn; [reflexivity |].
  rewrite IH. reflexivity.
Qed.

Lemma updateAchievementProgress_ball (id : string) (x : Z) (s : GameState) :
  ball (fst (updateAchievementProgress id x s)) = ball s.
Proof. reflexivity. Qed.

Lemma startGame_ball (s : GameState) :
  ball (settle (startGame W H s)) =
    mkBall (mkVector2 (W / 2) (H / 2)) (mkVector2 0 0)
      (ballRadius (BASE_CONFIG W H)).
Proof. rewrite settle_ball. reflexivity. Qed.

Lemma step_radius (i : Input) (s : GameState) (rnd : nat -> Q) (n : nat) :
  ball_radius (ball s) = ballRadius (BASE_CONFIG W H) ->
  ball_radius (ball (fst (step W H i s rnd n))) = ballRadius (BASE_CONFIG W H).
Proof.
  intros Hr. destruct i as [now | x y |]; cbn [step].
  - rewrite updatePhysics_radius. exact Hr.
  - unfold retR; cbn [fst]. rewrite handleTouch_radius. exact Hr.
  - reflexivity.
Qed.

Lemma play_radius (inputs : list Input) (s : GameState) (rnd : nat -> Q)
    (n : nat) :
  ball_radius (ball s) = ballRadius (BASE_CONFIG W H) ->
  ball_radius (ball (fst (play W H inputs s rnd n))) =
    ballRadius (BASE_CONFIG W H).
Proof.
  revert s n. induction inputs as [| i rest IH]; intros s n Hr; cbn.
  - exact Hr.
  - unfold bindR. pose proof (step_radius i s rnd n Hr) as Hs.
    destruct (step W H i s rnd n) as [s' n']. apply IH. exact Hs.
Qed.

Lemma touchUpdater_velocity (x y : Q) (s : GameState) :
  let v := ball_velocity (ball s) in
  let force := horizontalForceFor (x - xOf (ball_position (ball s))) in
  xOf (ball_velocity (ball (touchUpdater x y s))) ==
    Qmax (-4) (Qmin 4 (xOf v * 0.7 + force)) /\
  yOf (ball_velocity (ball (touchUpdater x y s))) == -5.
Proof.
  cbv zeta. unfold touchUpdater; cbn. split.
  - reflexivity.
  - destruct (Qmin_cases 8 (-5)) as [[Hc Hm] | [Hc Hm]]; [lra |].
    destruct (Qmax_cases (- 8) (Qmin 8 (-5))) as [[Hd Hx] | [Hd Hx]];
      rewrite Hx; lra.
Qed.

(** C2, as the code has it.  From rest at (187, 400) a tick first adds the
    gravity 0.3 to the vertical velocity, then moves the ball by that
    velocity, to the height 400.3, and only then damps the velocity to
    0.297. *)
Theorem first_tick_from_rest (now : Z) (s : GameState) (rnd : nat -> Q)
    (n : nat) :
  currentScreen s = playing ->
  xOf (ball_position (ball s)) == 187 ->
  yOf (ball_position (ball s)) == 400 ->
  xOf (ball_velocity (ball s)) == 0 ->
  yOf (ball_velocity (ball s)) == 0 ->
  let s' := fst (updatePhysics W H now s rnd n) in
  gravity (BASE_CONFIG W H) == 0.3 /\
  yOf (ball_velocity (applyGravity W H (ball s))) == 0.3 /\
  yOf (ball_velocity (ball s')) == 0.297 /\
  yOf (ball_position (ball s')) == 400.3.
Proof.
  intros Hp _ Hy _ Hvy s'. subst s'.
  rewrite updatePhysics_ball by exact Hp.
  destruct (stepBall_vertical W H (ball s)) as [-> ->].
  cbn. repeat split; try reflexivity; rewrite ?Hy, ?Hvy; lra.
Qed.

(** C4, as the code has it.  A tap at x = 300 with the ball at x = 200
    selects the force +2 and sets the vertical velocity to -5; the
    horizontal velocity is [prevVelX * 0.7 + 2] clamped to [-4, 4], which is
    [prevVelX * 0.7 + 2] itself as long as that lies within the clamp. *)
Theorem tap_right_of_ball (touchY : Q) (s : GameState) :
  currentScreen s = playing ->
  xOf (ball_position (ball s)) == 200 ->
  let prevVelX := xOf (ball_velocity (ball s)) in
  let s' := handleTouch 300 touchY s in
  horizontalForceFor (300 - xOf (ball_position (ball s))) = 2 /\
  xOf (ball_velocity (ball s')) == Qmax (-4) (Qmin 4 (prevVelX * 0.7 + 2)) /\
  (-4 <= prevVelX * 0.7 + 2 <= 4 ->
   xOf (ball_velocity (ball s')) == prevVelX * 0.7 + 2) /\
  (4 <= prevVelX * 0.7 + 2 -> xOf (ball_velocity (ball s')) == 4) /\
  (prevVelX * 0.7 + 2 <= -4 -> xOf (ball_velocity (ball s')) == -4) /\
  yOf (ball_velocity (ball s')) == -5.
Proof.
  intros Hp Hx prevVelX s'. subst s'.
  rewrite handleTouch_playing by exact Hp.
  assert (Hf : horizontalForceFor (300 - xOf (ball_position (ball s))) = 2).
  { unfold horizontalForceFor.
    assert (Hpos : Qltb 0 (300 - xOf (ball_position (ball s))) = true)
      by (apply Qltb_lt; rewrite Hx; lra).
    rewrite Hpos. reflexivity. }
  destruct (touchUpdater_velocity 300 touchY s) as [Hvx Hvy].
  rewrite Hf in Hvx. fold prevVelX in Hvx.
  split; [exact Hf |]. split; [exact Hvx |].
  assert (Hclamp : forall e, -4 <= Qmax (-4) (Qmin 4 e) <= 4 /\
                     (-4 <= e <= 4 -> Qmax (-4) (Qmin 4 e) == e) /\
                     (4 <= e -> Qmax (-4) (Qmin 4 e) == 4) /\
                     (e <= -4 -> Qmax (-4) (Qmin 4 e) == -4)).
  { intros e.
    destruct (Qmin_cases 4 e) as [[Hc Hm] | [Hc Hm]];
      destruct (Qmax_cases (-4) (Qmin 4 e)) as [[Hd Hm'] | [Hd Hm']];
      rewrite Hm'; repeat split; intros; lra. }
  destruct (Hclamp (prevVelX * 0.7 + 2)) as (_ & Hin & Hhi & Hlo).
  rewrite Hvx. repeat split; assumption.
Qed.

(** C7.  Neither a tick nor a tap changes the radius of the ball, so it is
    the configured radius during the whole of a run; and right after a tap
    in the playing phase the velocity is within 4 horizontally and within 8
    vertically. *)
Theorem radius_constant_and_tap_bounded (now : Z) (s s0 : GameState)
    (rnd : nat -> Q) (n : nat) (x y : Q) (inputs : list Input) :
  ball_radius (ball (fst (updatePhysics W H now s rnd n))) = ball_radius (ball s) /\
  ball_radius (ball (handleTouch x y s)) = ball_radius (ball s) /\
  ball_radius (ball (fst (play W H inputs (settle (startGame W H s0)) rnd n))) =
    ballRadius (BASE_CONFIG W H) /\
  (currentScreen s = playing ->
   Qabs (xOf (ball_velocity (ball (handleTouch x y s)))) <= 4 /\
   Qabs (yOf (ball_velocity (ball (handleTouch x y s)))) <= 8).
Proof.
  split; [apply updatePhysics_radius |].
  split; [apply handleTouch_radius |].
  split.
  - apply play_radius. rewrite startGame_ball. reflexivity.
  - intros Hp. rewrite handleTouch_playing by exact Hp.
    destruct (touchUpdater_velocity x y s) as [Hvx Hvy].
    rewrite Hvx, Hvy. split.
    + apply Qabs_Qle_condition.
      set (e := xOf (ball_velocity (ball s)) * 0.7 + _).
      destruct (Qmin_cases 4 e) as [[Hc Hm] | [Hc Hm]];
        destruct (Qmax_cases (-4) (Qmin 4 e)) as [[Hd Hm'] | [Hd Hm']];
        rewrite Hm'; lra.
    + apply Qabs_Qle_condition. lra.
Qed.

End BallFacts.

(** ** The window of obstacles and coins *)

Section WindowFacts.

Variables W H : Q.
Hypothesis W_positive : 0 < W.
Hypothesis H_positive : 0 < H.

Lemma inWindow_spec (p : Vector2) :
  inWindow W H p = true <-> withinWindow W H p.
Proof.
  unfold inWindow, withinWindow.
  rewrite !andb_true_iff, !Qltb_lt. tauto.
Qed.

Lemma spawn_height_in_window (r : Q) :
  0 <= r < 1 -> -100 < r * (H - 200) + 100 < H + 100.
Proof. intros [Hlo Hhi]. split; nra. Qed.

Lemma spawnObstacle_in_window (now : Z) (sp sw : Q) (rnd : nat -> Q) (n : nat) :
  (forall k, 0 <= rnd k < 1) ->
  Forall (fun o => withinWindow W H (obstacle_position o))
    (fst (spawnObstacle W H now sp sw rnd n)).
Proof.
  intros Hrnd. unfold spawnObstacle, bindR, random, retR.
  destruct (Qltb (rnd n) _); cbn; [| constructor].
  constructor; [| constructor].
  split; cbn; [| apply spawn_height_in_window, Hrnd].
  destruct (pickSide _); lra.
Qed.

Lemma spawnCoin_in_window (now : Z) (sp : Q) (rnd : nat -> Q) (n : nat) :
  (forall k, 0 <= rnd k < 1) ->
  Forall (fun c => withinWindow W H (coin_position c))
    (fst (spawnCoin W H now sp rnd n)).
Proof.
  intros Hrnd. unfold spawnCoin, bindR, random, retR.
  destruct (Qltb (rnd n) _); cbn; [| constructor].
  constructor; [| constructor].
  split; cbn; [| apply spawn_height_in_window, Hrnd].
  destruct (pickSide _); lra.
Qed.

Lemma updateObstacles_in_window (os : list Obstacle) :
  Forall (fun o => withinWindow W H (obstacle_position o)) (updateObstacles W H os).
Proof.
  unfold updateObstacles. apply List.Forall_forall. intros o Hin.
  apply List.filter_In in Hin. apply inWindow_spec, Hin.
Qed.

Lemma updateCoins_in_window (cs : list Coin) :
  Forall (fun c => withinWindow W H (coin_position c)) (updateCoins W H cs).
Proof.
  unfold updateCoins. apply List.Forall_forall. intros c Hin.
  apply List.filter_In in Hin. apply inWindow_spec, Hin.
Qed.

Lemma tick_establishes_window (now : Z) (s : GameState) (rnd : nat -> Q)
    (n : nat) :
  currentScreen s = playing ->
  (forall k, 0 <= rnd k < 1) ->
  worldWithinWindow W H (fst (updatePhysics W H now s rnd n)).
Proof.
  intros Hp Hrnd. unfold worldWithinWindow.
  rewrite updatePhysics_playing by exact Hp.
  rewrite physicsUpdater_unfold.
  set (mid := fst (physicsBeforeCollection W H now s rnd n)).
  destruct (coinCollection_fields W H mid) as (_ & -> & -> & _).
  destruct (before_collection_fields W H now s rnd n) as (_ & Ho & Hc & _).
  fold mid in Ho, Hc. rewrite Ho, Hc. split.
  - apply Forall_app. split.
    + apply updateObstacles_in_window.
    + apply spawnObstacle_in_window, Hrnd.
  - apply List.Forall_forall. intros c Hin.
    apply List.filter_In in Hin. destruct Hin as [Hin _].
    revert c Hin. apply List.Forall_forall.
    apply Forall_app. split.
    + apply updateCoins_in_window.
    + apply spawnCoin_in_window, Hrnd.
Qed.

Lemma handleTouch_entities (x y : Q) (s : GameState) :
  obstacles (handleTouch x y s) = obstacles s /\
  coins (handleTouch x y s) = coins s.
Proof. unfold handleTouch. destruct (decide _); split; reflexivity. Qed.

Lemma step_keeps_window (i : Input) (s : GameState) (rnd : nat -> Q)
    (n : nat) :
  (forall k, 0 <= rnd k < 1) ->
  worldWithinWindow W H s ->
  worldWithinWindow W H (fst (step W H i s rnd n)).
Proof.
  intros Hrnd Hs. destruct i as [now | x y |]; cbn [step].
  - destruct (decide (currentScreen s = playing)) as [Hp | Hp].
    + apply tick_establishes_window; assumption.
    + rewrite updatePhysics_idle by exact Hp. exact Hs.
  - unfold retR, worldWithinWindow; cbn [fst].
    destruct (handleTouch_entities x y s) as [-> ->]. exact Hs.
  - exact Hs.
Qed.

Lemma play_keeps_window (inputs : list Input) (s : GameState)
    (rnd : nat -> Q) (n : nat) :
  (forall k, 0 <= rnd k < 1) ->
  worldWithinWindow W H s ->
  worldWithinWindow W H (fst (play W H inputs s rnd n)).
Proof.
  intros Hrnd. revert s n.
  induction inputs as [| i rest IH]; intros s n Hs; cbn [play].
  - exact Hs.
  - unfold bindR. pose proof (step_keeps_window i s rnd n Hrnd Hs) as Hstep.
    destruct (step W H i s rnd n) as [s' n']. apply IH. exact Hstep.
Qed.

Lemma settle_entities (o : Outcome) :
  obstacles (settle o) = obstacles (fst o) /\ coins (settle o) = coins (fst o).
Proof.
  destruct o as [s ds]. unfold settle; cbn [fst snd].
  revert s. induction ds as [| d ds IH]; intros s; cbn; [split; reflexivity |].
  destruct (IH (with_collectedCoins d s)) as [-> ->]. split; reflexivity.
Qed.

Lemma startGame_window (s0 : GameState) :
  worldWithinWindow W H (settle (startGame W H s0)).
Proof.
  unfold worldWithinWindow.
  destruct (settle_entities (startGame W H s0)) as [-> ->].
  split; constructor.
Qed.

(** C6.  After a tick every obstacle and every coin of the world, the ones
    spawned by that tick included, lies strictly inside the window that
    extends the screen by 100 on each side; and so it is at every moment of
    a run, whatever the ticks, taps and continues it is made of.  The screen
    has positive dimensions and [Math.random()] draws from [0, 1). *)
Theorem entities_within_window (now : Z) (s s0 : GameState) (rnd : nat -> Q)
    (n : nat) (inputs : list Input) :
  (forall k, 0 <= rnd k < 1) ->
  let inside (p : Vector2) :=
    -100 < xOf p < W + 100 /\ -100 < yOf p < H + 100 in
  let run := fst (play W H inputs (settle (startGame W H s0)) rnd n) in
  (currentScreen s = playing ->
   let s' := fst (updatePhysics W H now s rnd n) in
   Forall (fun o => inside (obstacle_position o)) (obstacles s') /\
   Forall (fun c => inside (coin_position c)) (coins s')) /\
  Forall (fun o => inside (obstacle_position o)) (obstacles run) /\
  Forall (fun c => inside (coin_position c)) (coins run).
Proof.
  intros Hrnd inside run. split.
  - intros Hp. apply tick_establishes_window; assumption.
  - apply play_keeps_window; [exact Hrnd | apply startGame_window].
Qed.

End WindowFacts.

(** ** The coins of a run and the pair handed to the leaderboard *)

Section RunFacts.

Variables W H : Q.

Lemma tick_balance (now : Z) (s : GameState) (rnd : nat -> Q) (n : nat) :
  collectedCoins (fst (updatePhysics W H now s rnd n)) =
    (collectedCoins s + fst (tickGain W H now s rnd n))%Z.
Proof.
  unfold tickGain.
  destruct (decide (currentScreen s = playing)) as [Hp | Hp].
  - rewrite updatePhysics_playing by exact Hp.
    rewrite physicsUpdater_unfold.
    destruct (coinCollection_fields W H
                (fst (physicsBeforeCollection W H now s rnd n)))
      as (_ & _ & _ & _ & _ & ->).
    destruct (before_collection_fields W H now s rnd n)
      as (_ & _ & _ & _ & ->).
    unfold bindR.
    destruct (physicsBeforeCollection W H now s rnd n) as [mid n'].
    reflexivity.
  - rewrite updatePhysics_idle by exact Hp. unfold retR; cbn [fst]. lia.
Qed.

Lemma play_balance (inputs : list Input) (s : GameState) (rnd : nat -> Q)
    (n : nat) :
  collectedCoins (fst (play W H inputs s rnd n)) =
    (collectedCoins s + fst (runCoins W H inputs s rnd n))%Z.
Proof.
  revert s n. induction inputs as [| i rest IH]; intros s n.
  - cbn. lia.
  - cbn [play runCoins]. unfold bindR.
    assert (Hstep : collectedCoins (fst (step W H i s rnd n)) =
                    (collectedCoins s +
                     match i with
                     | Tick now => fst (tickGain W H now s rnd n)
                     | _ => 0
                     end)%Z).
    { destruct i as [now | x y |]; cbn [step].
      - apply tick_balance.
      - unfold retR; cbn [fst]. rewrite handleTouch_collectedCoins. lia.
      - unfold retR; cbn. lia. }
    destruct (step W H i s rnd n) as [s' n']. cbn [fst] in Hstep.
    specialize (IH s' n').
    destruct (runCoins W H rest s' rnd n') as [more n'']. cbn [fst] in *.
    rewrite IH, Hstep. lia.
Qed.

(** Whatever a run does, the coin count it hands to [submitScore] is the
    balance the run started with plus the coins collected during the run. *)
Lemma submission_is_balance_plus_run (s0 : GameState) (inputs : list Input)
    (rnd : nat -> Q) (n : nat) :
  let start := settle (startGame W H s0) in
  snd (gameOverSubmission (fst (play W H inputs start rnd n))) =
    (collectedCoins start + fst (runCoins W H inputs start rnd n))%Z.
Proof. cbv zeta. unfold gameOverSubmission; cbn [snd]. apply play_balance. Qed.

Lemma submission_differs_from_run_coins (s0 : GameState)
    (inputs : list Input) (rnd : nat -> Q) (n : nat) :
  let start := settle (startGame W H s0) in
  collectedCoins start <> 0%Z ->
  snd (gameOverSubmission (fst (play W H inputs start rnd n))) <>
    fst (runCoins W H inputs start rnd n).
Proof.
  intros start Hbal. subst start. rewrite submission_is_balance_plus_run. lia.
Qed.

End RunFacts.

(** C1, on the first run of a fresh installation.  The run collects one
    coin of value 5 and ends on a cone after 37 ticks; the effect of the
    game-over screen then hands 15 to [submitScore], the balance (the 10
    coins of the first-game achievement and the 5 of the coin), and the
    leaderboard records 15 as the best coin count of the run. *)
Theorem first_run_submits_balance :
  currentScreen firstRunEnd = gameOver /\
  score firstRunEnd = 37%Z /\
  fst (runCoins 375 667 firstRunInputs firstRunStart firstRunOracle 0%nat) = 5%Z /\
  gameOverSubmission firstRunEnd = (0%Z, 15%Z) /\
  map bestCoins
    (leaderboard (settle (gameOverEffect 1700000000600 firstRunEnd))) = [15%Z].
Proof. vm_compute. repeat split. Qed.

(** ** Achievements *)

Lemma achievementStep_frozen (id : string) (sample balance : Z)
    (a : Achievement) :
  completed a = true \/ achievement_id a <> id ->
  achievementStep id sample balance a = (a, []).
Proof.
  intros [Hc | Hid]; unfold achievementStep.
  - rewrite Hc, andb_false_r. reflexivity.
  - rewrite bool_decide_eq_false_2 by exact Hid. reflexivity.
Qed.

Lemma achievementStep_open (id : string) (sample balance : Z)
    (a : Achievement) :
  completed a = false -> achievement_id a = id ->
  let a' := fst (achievementStep id sample balance a) in
  progress a' = Z.max (progress a) sample /\
  completed a' = (requirement a <=? Z.max (progress a) sample)%Z /\
  reward a' = reward a /\ requirement a' = requirement a /\
  achievement_id a' = achievement_id a.
Proof.
  intros Hc Hid. unfold achievementStep.
  rewrite bool_decide_eq_true_2 by exact Hid. rewrite Hc. cbn.
  repeat split.
Qed.

Lemma achievementStep_grants (id : string) (sample balance : Z)
    (a : Achievement) :
  snd (achievementStep id sample balance a) =
    if negb (completed a) && completed (fst (achievementStep id sample balance a))
    then [(balance + reward a)%Z] else [].
Proof.
  unfold achievementStep.
  destruct (bool_decide (achievement_id a = id)), (completed a) eqn:Hc; cbn;
    rewrite ?Hc; try reflexivity.
  destruct (requirement a <=? Z.max (progress a) sample)%Z; reflexivity.
Qed.

Lemma achievementStep_progress (id : string) (sample balance : Z)
    (a : Achievement) :
  (progress a <= progress (fst (achievementStep id sample balance a)))%Z.
Proof.
  unfold achievementStep.
  destruct (bool_decide _ && negb _); cbn; lia.
Qed.

Lemma achievementStep_reward (id : string) (sample balance : Z)
    (a : Achievement) :
  reward (fst (achievementStep id sample balance a)) = reward a.
Proof. unfold achievementStep. destruct (bool_decide _ && negb _); reflexivity. Qed.

Lemma achievementStep_stays_completed (id : string) (sample balance : Z)
    (a : Achievement) :
  completed a = true ->
  completed (fst (achievementStep id sample balance a)) = true.
Proof.
  intros Hc. rewrite achievementStep_frozen by (now left). exact Hc.
Qed.

Lemma achievementRun_frozen (updates : list (string * Z * Z)) (a : Achievement) :
  completed a = true -> achievementRun updates a = (a, []).
Proof.
  intros Hc. induction updates as [| [[id sample] balance] rest IH]; cbn.
  - reflexivity.
  - rewrite achievementStep_frozen by (now left). rewrite IH. reflexivity.
Qed.

Lemma achievementRun_progress (updates : list (string * Z * Z))
    (a : Achievement) :
  (progress a <= progress (fst (achievementRun updates a)))%Z.
Proof.
  revert a. induction updates as [| [[id sample] balance] rest IH]; intros a; cbn.
  - lia.
  - pose proof (achievementStep_progress id sample balance a) as Hs.
    destruct (achievementStep id sample balance a) as [a1 g1]. cbn [fst] in Hs.
    specialize (IH a1).
    destruct (achievementRun rest a1) as [a2 g2]. cbn [fst] in *. lia.
Qed.

Lemma achievementRun_grants (updates : list (string * Z * Z)) (a : Achievement) :
  let out := achievementRun updates a in
  (length (snd out) <= 1)%nat /\
  (length (snd out) = 1%nat <-> completed a = false /\ completed (fst out) = true) /\
  (forall g, g ∈ snd out ->
     exists id sample balance,
       (id, sample, balance) ∈ updates /\ g = (balance + reward a)%Z).
Proof.
  cbv zeta. revert a.
  induction updates as [| [[id sample] balance] rest IH]; intros a.
  - cbn. split; [lia |]. split.
    + split; [discriminate |]. intros [Hf Ht]. congruence.
    + intros g Hg. inversion Hg.
  - cbn [achievementRun].
    pose proof (achievementStep_grants id sample balance a) as Hg1.
    pose proof (achievementStep_reward id sample balance a) as Hr1.
    pose proof (achievementStep_stays_completed id sample balance a) as Hkeep.
    destruct (achievementStep id sample balance a) as [a1 g1].
    cbn [fst snd] in Hg1, Hr1, Hkeep.
    destruct (completed a1) eqn:Hc1.
    + rewrite (achievementRun_frozen rest a1 Hc1). cbn [fst snd].
      rewrite app_nil_r, Hc1, andb_true_r in *. subst g1.
      destruct (completed a) eqn:Hc; cbn.
      * split; [lia |]. split; [split; [discriminate | intros [? ?]; congruence] |].
        intros g Hg. inversion Hg.
      * split; [lia |]. split; [tauto |].
        intros g Hg. apply list_elem_of_singleton in Hg. subst g.
        exists id, sample, balance. split; [left | reflexivity].
    + rewrite andb_false_r in Hg1. subst g1.
      specialize (IH a1). destruct (achievementRun rest a1) as [a2 g2].
      cbn [fst snd app] in *. destruct IH as (Hlen & Hiff & Hmem).
      assert (Hca : completed a = false).
      { destruct (completed a) eqn:Hc; [| reflexivity].
        specialize (Hkeep eq_refl). congruence. }
      split; [exact Hlen |]. split.
      * rewrite Hiff. rewrite Hca. tauto.
      * intros g Hg. destruct (Hmem g Hg) as (id' & x' & b' & Hin & ->).
        exists id', x', b'. split; [right; exact Hin | congruence].
Qed.

Lemma achievementRun_app (before later : list (string * Z * Z))
    (a : Achievement) :
  fst (achievementRun (before ++ later) a) =
    fst (achievementRun later (fst (achievementRun before a))).
Proof.
  revert a. induction before as [| [[id sample] balance] rest IH]; intros a.
  - reflexivity.
  - cbn [app achievementRun].
    destruct (achievementStep id sample balance a) as [a1 g1].
    specialize (IH a1).
    destruct (achievementRun (rest ++ later) a1) as [a2 g2].
    destruct (achievementRun rest a1) as [a3 g3]. cbn [fst] in *.
    rewrite IH. destruct (achievementRun later a3). reflexivity.
Qed.

(** C3, as the code has it.  An update reaches an achievement only while it
    is not completed: it then sets the progress to the larger of the
    progress and the sample and completes the achievement when that reaches
    the requirement.  A completed achievement, or one with another id, is
    left as it is whatever the sample.  So over any sequence of updates the
    progress never decreases, and once an achievement is completed it stays
    completed and unchanged: the completed flag goes from false to true at
    most once and never back. *)
Theorem achievement_progress_and_completion
    (updates later : list (string * Z * Z)) (a : Achievement) (id : string)
    (sample balance : Z) (s : GameState) :
  let one := fst (achievementStep id sample balance a) in
  let reached := fst (achievementRun updates a) in
  (completed a = false -> achievement_id a = id ->
   progress one = Z.max (progress a) sample /\
   completed one = (requirement a <=? Z.max (progress a) sample)%Z) /\
  (completed a = true \/ achievement_id a <> id -> one = a) /\
  (progress a <= progress reached)%Z /\
  (completed a = true -> reached = a) /\
  (completed reached = true ->
   fst (achievementRun (updates ++ later) a) = reached) /\
  achievements (fst (updateAchievementProgress id sample s)) =
    map (fun x => fst (achievementStep id sample (collectedCoins s) x))
      (achievements s).
Proof.
  cbv zeta.
  split. { intros Hc Hid.
           destruct (achievementStep_open id sample balance a Hc Hid)
             as (Hp & Hd & _). split; assumption. }
  split. { intros Hfrozen. rewrite achievementStep_frozen by exact Hfrozen.
           reflexivity. }
  split. { apply achievementRun_progress. }
  split. { intros Hc. rewrite achievementRun_frozen by exact Hc. reflexivity. }
  split. { intros Hc. rewrite achievementRun_app.
           rewrite achievementRun_frozen by exact Hc. reflexivity. }
  unfold updateAchievementProgress; cbn [fst achievements with_achievements].
  rewrite map_map. reflexivity.
Qed.

(** ** The leaderboard *)

Lemma updatedLeaderboard_existing (now t c : Z) (s : GameState) (i : nat)
    (e : LeaderboardEntry) :
  list_find (fun x => entry_playerName x = playerName s) (leaderboard s)
    = Some (i, e) ->
  exists e',
    updatedLeaderboard now t c s = <[i := e']> (leaderboard s) /\
    entry_playerName e' = entry_playerName e /\
    bestTime e' = Z.max (bestTime e) t /\
    bestCoins e' = Z.max (bestCoins e) c.
Proof.
  intros Hfind. unfold updatedLeaderboard. rewrite Hfind.
  eexists. split; [reflexivity |]. cbn. repeat split.
Qed.

Lemma submitScore_existing (now t c : Z) (s : GameState) (i : nat)
    (e : LeaderboardEntry) :
  list_find (fun x => entry_playerName x = playerName s) (leaderboard s)
    = Some (i, e) ->
  exists e',
    list_find (fun x => entry_playerName x = playerName (submitScore now t c s))
      (leaderboard (submitScore now t c s)) = Some (i, e') /\
    bestTime e' = Z.max (bestTime e) t /\
    bestCoins e' = Z.max (bestCoins e) c /\
    length (leaderboard (submitScore now t c s)) = length (leaderboard s) /\
    (forall j, j <> i ->
       leaderboard (submitScore now t c s) !! j = leaderboard s !! j).
Proof.
  intros Hfind.
  destruct (updatedLeaderboard_existing now t c s i e Hfind)
    as (e' & Hup & Hname & Ht & Hc).
  exists e'. unfold submitScore; cbn [leaderboard playerName with_leaderboard].
  rewrite Hup. apply list_find_Some in Hfind. destruct Hfind as (Hi & HP & Hlt).
  assert (Hlen : (i < length (leaderboard s))%nat)
    by (apply lookup_lt_is_Some; eauto).
  split; [| split; [exact Ht | split; [exact Hc | split]]].
  - apply list_find_Some. split; [| split].
    + apply list_lookup_insert_eq. exact Hlen.
    + rewrite Hname. exact HP.
    + intros j y Hj Hji. rewrite list_lookup_insert_ne in Hj by lia.
      exact (Hlt j y Hj Hji).
  - apply length_insert.
  - intros j Hj. apply list_lookup_insert_ne. congruence.
Qed.

Lemma submitAll_existing (subs : list (Z * Z * Z)) (s : GameState) (i : nat)
    (e : LeaderboardEntry) :
  list_find (fun x => entry_playerName x = playerName s) (leaderboard s)
    = Some (i, e) ->
  exists e',
    list_find (fun x => entry_playerName x = playerName (submitAll subs s))
      (leaderboard (submitAll subs s)) = Some (i, e') /\
    (bestTime e <= bestTime e')%Z /\ (bestCoins e <= bestCoins e')%Z.
Proof.
  revert s e. induction subs as [| [[now t] c] rest IH]; intros s e Hfind; cbn.
  - exists e. split; [exact Hfind | lia].
  - destruct (submitScore_existing now t c s i e Hfind)
      as (e1 & Hf1 & Ht & Hc & _).
    destruct (IH _ _ Hf1) as (e2 & Hf2 & Ht2 & Hc2).
    exists e2. split; [exact Hf2 | lia].
Qed.

(** C8.  A submission for a player who has an entry replaces the best time
    by the larger of the old best and the submitted time, and the best coin
    count likewise, each on its own; the entry keeps its place, the other
    entries are untouched, and over any further submissions neither metric
    ever decreases. *)
Theorem leaderboard_keeps_maxima (now t c : Z) (s : GameState) (i : nat)
    (e : LeaderboardEntry) (later : list (Z * Z * Z)) :
  list_find (fun x => entry_playerName x = playerName s) (leaderboard s)
    = Some (i, e) ->
  exists e' e'',
    leaderboard (submitScore now t c s) !! i = Some e' /\
    bestTime e' = Z.max (bestTime e) t /\
    bestCoins e' = Z.max (bestCoins e) c /\
    (bestTime e <= bestTime e')%Z /\ (bestCoins e <= bestCoins e')%Z /\
    ((t <= bestTime e)%Z -> (bestCoins e < c)%Z ->
     bestTime e' = bestTime e /\ bestCoins e' = c) /\
    ((c <= bestCoins e)%Z -> (bestTime e < t)%Z ->
     bestCoins e' = bestCoins e /\ bestTime e' = t) /\
    (forall j, j <> i ->
       leaderboard (submitScore now t c s) !! j = leaderboard s !! j) /\
    leaderboard (submitAll later (submitScore now t c s)) !! i = Some e'' /\
    (bestTime e' <= bestTime e'')%Z /\ (bestCoins e' <= bestCoins e'')%Z.
Proof.
  intros Hfind.
  destruct (submitScore_existing now t c s i e Hfind)
    as (e' & Hf' & Ht & Hc & _ & Hothers).
  destruct (submitAll_existing later _ i e' Hf') as (e'' & Hf'' & Ht'' & Hc'').
  exists e', e''.
  apply list_find_Some in Hf'. destruct Hf' as (Hi' & _).
  apply list_find_Some in Hf''. destruct Hf'' as (Hi'' & _).
  repeat split; try assumption; lia.
Qed.

(** ** The daily streak *)

Lemma resetRewards_unclaimed :
  length resetRewards = 7%nat /\ Forall (fun r => claimed r = false) resetRewards.
Proof. split; [reflexivity |]. repeat constructor. Qed.

(** What the handler does on a new day, by what it reads in [rendered]:
    the wrap, its only branch that touches the daily rewards, is taken when
    the login it reads is yesterday's and the streak it reads is at least
    7. *)
Lemma checkDailyLoginRewardIn_new_day (rendered : GameState)
    (today yesterday : string) (prev : GameState) :
  lastLoginDate rendered <> today ->
  let incremented :=
    if bool_decide (lastLoginDate rendered = yesterday)
    then (currentStreak rendered + 1)%Z else 1%Z in
  let s' := fst (checkDailyLoginRewardIn rendered today yesterday prev) in
  lastLoginDate s' = today /\
  currentStreak s' = (if (7 <? incremented)%Z then 1%Z else incremented) /\
  dailyRewards s' =
    (if (7 <? incremented)%Z then resetRewards else dailyRewards prev).
Proof.
  intros Hd. cbv zeta. unfold checkDailyLoginRewardIn.
  rewrite bool_decide_eq_true_2 by exact Hd.
  destruct (7 <? _)%Z; cbn; repeat split.
Qed.


(** ** The store *)

Lemma find_skin_unknown (skinId : string) :
  skinId ∉ map skin_id BALL_SKINS ->
  List.find (fun k => bool_decide (skin_id k = skinId)) BALL_SKINS = None.
Proof.
  intros Hnot.
  destruct (List.find _ BALL_SKINS) as [k |] eqn:Hfind; [| reflexivity].
  apply List.find_some in Hfind. destruct Hfind as [Hin Hid].
  apply bool_decide_eq_true in Hid. exfalso. apply Hnot.
  rewrite <- Hid. apply list_elem_of_In, List.in_map, Hin.
Qed.

(** C10.  Buying a skin with coins changes nothing when the id is not in
    the catalogue, when the skin is already unlocked or when the balance
    is below the price; otherwise it takes exactly the price from the
    balance, which stays non-negative, appends the id to the unlocked
    skins and selects the skin, and touches nothing else. *)
Theorem purchase_with_coins (skinId : string) (s : GameState) :
  let s' := purchaseSkinWithCoins skinId s in
  let found := List.find (fun k => bool_decide (skin_id k = skinId)) BALL_SKINS in
  (skinId ∉ map skin_id BALL_SKINS -> s' = s) /\
  (skinId ∈ unlockedSkins s -> s' = s) /\
  (forall skin, found = Some skin ->
     (collectedCoins s < coinPrice skin)%Z -> s' = s) /\
  (forall skin, found = Some skin ->
     skinId ∉ unlockedSkins s -> (coinPrice skin <= collectedCoins s)%Z ->
     collectedCoins s' = (collectedCoins s - coinPrice skin)%Z /\
     (0 <= collectedCoins s')%Z /\
     unlockedSkins s' = unlockedSkins s ++ [skinId] /\
     selectedSkin s' = skinId /\
     s' = with_selectedSkin skinId
            (with_unlockedSkins (unlockedSkins s ++ [skinId])
               (with_collectedCoins (collectedCoins s - coinPrice skin)%Z s))).
Proof.
  cbv zeta. unfold purchaseSkinWithCoins.
  split; [| split; [| split]].
  - intros Hnot. rewrite find_skin_unknown by exact Hnot. reflexivity.
  - intros Hin. destruct (List.find _ BALL_SKINS); [| reflexivity].
    rewrite (bool_decide_eq_true_2 _ Hin), andb_false_r. reflexivity.
  - intros skin -> Hlt.
    assert (Hb : (coinPrice skin <=? collectedCoins s)%Z = false)
      by (apply Z.leb_gt; exact Hlt).
    rewrite Hb. reflexivity.
  - intros skin -> Hnew Hle.
    rewrite (proj2 (Z.leb_le _ _) Hle), (bool_decide_eq_false_2 _ Hnew).
    cbn. repeat split. lia.
Qed.

(** * The scenarios, evaluated *)

(** C2 at the first tick of a game on a 374 x 800 screen: the height after
    the tick is not 400.297. *)
Lemma first_tick_height_is_not_400_297 :
  ~ (let s' := fst (updatePhysics 374 800 1700000000000 restState
                      (fun _ => 0.99) 0%nat) in
     yOf (ball_velocity (applyGravity 374 800 (ball restState))) == 0.3 /\
     yOf (ball_velocity (ball s')) == 0.297 /\
     yOf (ball_position (ball s')) == 400.297).
Proof. intros (_ & _ & Hy). vm_compute in Hy. discriminate. Qed.

Lemma first_tick_from_rest_witness :
  let s' := fst (updatePhysics 374 800 1700000000000 restState
                   (fun _ => 0.99) 0%nat) in
  yOf (ball_velocity (ball s')) == 0.297 /\
  yOf (ball_position (ball s')) == 400.3.
Proof.
  destruct (first_tick_from_rest 374 800 1700000000000 restState
              (fun _ => 0.99) 0%nat) as (_ & _ & Hv & Hy);
    [reflexivity .. | split; [exact Hv | exact Hy]].
Defined.

(** C3 at the second game: the first-game achievement was completed by the
    first game with progress 1, and the sample 2 of the second game does
    not raise its progress to max(1, 2). *)
Lemma completed_achievement_ignores_sample :
  ~ (forall a a',
       achievements firstRunStart !! 0%nat = Some a ->
       achievements (fst (updateAchievementProgress "first_game" 2 firstRunStart))
         !! 0%nat = Some a' ->
       progress a' = Z.max (progress a) 2).
Proof.
  intros Hclaim. specialize (Hclaim _ _ eq_refl eq_refl).
  vm_compute in Hclaim. discriminate.
Qed.

Lemma achievement_progress_and_completion_witness :
  let a := mkAchievement "first_game" "Getting Started"
             "Play your first game" 1 0 false 10 ofGames in
  let one := fst (achievementStep "first_game" 1 0 a) in
  progress one = 1%Z /\ completed one = true /\
  fst (achievementRun [("first_game", 1%Z, 0%Z); ("first_game", 2%Z, 10%Z)] a)
    = one.
Proof.
  intros a one.
  destruct (achievement_progress_and_completion
              [("first_game", 1%Z, 0%Z)] [("first_game", 2%Z, 10%Z)] a
              "first_game" 1 0 firstRunStart)
    as (Hopen & _ & _ & _ & Hstays & _).
  destruct (Hopen eq_refl eq_refl) as [Hp Hc].
  split; [exact Hp |]. split; [exact Hc |].
  apply Hstays. exact Hc.
Defined.

(** C4 at the third of three taps at x = 300 on a ball resting at x = 200:
    the velocity before the tap is 3.4, and the velocity after it is the
    cap 4, not 3.4 * 0.7 + 2 = 4.38. *)
Lemma third_tap_is_clamped :
  ~ (xOf (ball_velocity (ball (handleTouch 300 0 afterTwoTaps))) ==
     xOf (ball_velocity (ball afterTwoTaps)) * 0.7 + 2).
Proof. intros Hclaim. vm_compute in Hclaim. discriminate. Qed.

Lemma tap_right_of_ball_witness :
  xOf (ball_velocity (ball (handleTouch 300 0 afterTwoTaps))) == 4 /\
  yOf (ball_velocity (ball (handleTouch 300 0 afterTwoTaps))) == -5.
Proof.
  destruct (tap_right_of_ball 0 afterTwoTaps) as (_ & _ & _ & Hcap & _ & Hvy);
    [reflexivity | reflexivity |].
  split; [apply Hcap; vm_compute; discriminate | exact Hvy].
Defined.

Lemma difficulty_curve_witness :
  speedMultiplier 600 <= speedMultiplier 1200 /\
  spawnMultiplier 600 <= spawnMultiplier 1200 /\
  speedMultiplier 600 <= 2.2 /\ spawnMultiplier 600 <= 3.5.
Proof.
  destruct (difficulty_curve 600 1200) as (_ & _ & H1 & H2 & H3 & H4);
    [lia | lia |].
  repeat split; assumption.
Defined.

Lemma entities_within_window_witness :
  let s' := fst (updatePhysics 375 667 1700000000000 firstRunStart
                   (fun _ => 0.001) 0%nat) in
  length (obstacles s') = 1%nat /\ length (coins s') = 1%nat /\
  Forall (fun o => -100 < xOf (obstacle_position o) < 375 + 100 /\
                   -100 < yOf (obstacle_position o) < 667 + 100) (obstacles s') /\
  Forall (fun c => -100 < xOf (coin_position c) < 375 + 100 /\
                   -100 < yOf (coin_position c) < 667 + 100) (coins s').
Proof.
  intros s'. split; [reflexivity |]. split; [reflexivity |].
  apply (entities_within_window 375 667 eq_refl eq_refl 1700000000000
           firstRunStart firstRunStart (fun _ => 0.001) 0%nat []).
  - intros k. split; [discriminate | reflexivity].
  - reflexivity.
Defined.

Lemma radius_constant_and_tap_bounded_witness :
  ball_radius (ball firstRunEnd) = 25 /\
  Qabs (xOf (ball_velocity (ball (handleTouch 300 0 afterTwoTaps)))) <= 4 /\
  Qabs (yOf (ball_velocity (ball (handleTouch 300 0 afterTwoTaps)))) <= 8.
Proof.
  destruct (radius_constant_and_tap_bounded 375 667 1700000000000
              afterTwoTaps (initialGameState 375 667) firstRunOracle 0%nat
              300 0 firstRunInputs) as (_ & _ & Hr & Hb).
  split; [exact Hr | apply Hb; reflexivity].
Defined.

Lemma leaderboard_keeps_maxima_witness :
  exists e',
    leaderboard (submitScore 1700000090000 10 3 afterFirstRun) !! 0%nat
      = Some e' /\
    bestTime e' = 10%Z /\ bestCoins e' = 15%Z.
Proof.
  destruct (leaderboard_keeps_maxima 1700000090000 10 3 afterFirstRun 0%nat
              (mkLeaderboardEntry (timestampString 1700000000600) "Player"
                 0 15 1700000000600 1700000000600 "classic" "classic") [])
    as (e' & _ & Hi & Ht & Hc & _).
  - vm_compute. reflexivity.
  - exists e'. split; [exact Hi |]. split; [exact Ht | exact Hc].
Defined.

Lemma purchase_with_coins_witness :
  collectedCoins (purchaseSkinWithCoins "basketball" shopper) = 20%Z /\
  unlockedSkins (purchaseSkinWithCoins "basketball" shopper)
    = ["classic"; "basketball"] /\
  purchaseSkinWithCoins "crystal" shopper = shopper.
Proof.
  destruct (purchase_with_coins "basketball" shopper) as (_ & _ & _ & Hbuy).
  destruct (purchase_with_coins "crystal" shopper) as (_ & _ & Hpoor & _).
  destruct (Hbuy (mkBallSkin "basketball" "Basketball" 100 99 false) eq_refl)
    as (Hc & _ & Hu & _).
  - vm_compute. intros Hin. inversion Hin as [| ? ? ? Hin']. inversion Hin'.
  - vm_compute. discriminate.
  - split; [exact Hc |]. split; [exact Hu |].
    apply (Hpoor (mkBallSkin "crystal" "Crystal Ball" 500 299 false) eq_refl).
    reflexivity.
Defined.

(** * More properties of the engine *)

(** ** The ball during a run *)

Lemma Qleb_gt (a b : Q) : Qleb a b = false <-> b < a.
Proof.
  unfold Qleb. rewrite <- not_true_iff_false, Qle_bool_iff.
  split; [apply Qnot_le_lt | apply Qlt_not_le].
Qed.

Ltac case_ifs :=
  repeat match goal with
         | |- context [if ?c then _ else _] => destruct c; cbn
         end.

Section RunInvariants.

Variables W H : Q.

Lemma step_ball_cases (i : Input) (s : GameState) (rnd : nat -> Q) (n : nat) :
  let b' := ball (fst (step W H i s rnd n)) in
  b' = ball s \/
  b' = stepBall W H (ball s) \/
  (exists x y, b' = ball (touchUpdater x y s)) \/
  b' = mkBall (mkVector2 (W / 2) (H / 2)) (mkVector2 0 (-3))
         (ballRadius (BASE_CONFIG W H)).
Proof.
  destruct i as [now | x y |]; cbn [step].
  - destruct (decide (currentScreen s = playing)) as [Hp | Hp].
    + right; left. apply updatePhysics_ball. exact Hp.
    + left. rewrite updatePhysics_idle by exact Hp. reflexivity.
  - unfold retR, handleTouch; cbn [fst].
    destruct (decide _); [right; right; left; eauto | left; reflexivity].
  - right; right; right. reflexivity.
Qed.

(** A property of the ball that the tick, the tap and the continue keep
    holds all along a run. *)
Lemma play_ball_invariant (P : Ball -> Prop) :
  (forall b, P b -> P (stepBall W H b)) ->
  (forall x y s, P (ball s) -> P (ball (touchUpdater x y s))) ->
  P (mkBall (mkVector2 (W / 2) (H / 2)) (mkVector2 0 (-3))
       (ballRadius (BASE_CONFIG W H))) ->
  forall inputs s rnd n,
    P (ball s) -> P (ball (fst (play W H inputs s rnd n))).
Proof.
  intros Htick Htap Hcont inputs.
  induction inputs as [| i rest IH]; intros s rnd n Hs; cbn [play].
  - exact Hs.
  - unfold bindR.
    pose proof (step_ball_cases i s rnd n) as Hcases. cbv zeta in Hcases.
    destruct (step W H i s rnd n) as [s' n']. cbn [fst] in Hcases.
    apply IH.
    destruct Hcases as [-> | [-> | [(x & y & ->) | ->]]]; auto.
Qed.

Lemma stepBall_between_walls (b : Ball) :
  50 <= W ->
  25 <= xOf (ball_position (stepBall W H b)) <= W - 25.
Proof.
  intros HW. unfold stepBall, rightBoundary.
  set (b1 := leftBoundary W H _).
  assert (Hleft : 25 <= xOf (ball_position b1)).
  { subst b1. unfold leftBoundary.
    match goal with |- context [Qleb ?a ?c] => destruct (Qleb a c) eqn:Hl end.
    - cbn. lra.
    - apply Qleb_gt in Hl. cbn in Hl. cbn. lra. }
  destruct (Qleb _ (xOf (ball_position b1))) eqn:Hr; cbn.
  - lra.
  - apply Qleb_gt in Hr. cbn in Hr. lra.
Qed.

(** X1.  Once a game has started on a screen at least 50 wide, the centre
    of the ball stays between the two walls, a radius away from each edge,
    whatever the ticks, taps and continues. *)
Theorem ball_stays_between_walls (s0 : GameState) (inputs : list Input)
    (rnd : nat -> Q) (n : nat) :
  50 <= W ->
  let b := ball (fst (play W H inputs (settle (startGame W H s0)) rnd n)) in
  25 <= xOf (ball_position b) <= W - 25.
Proof.
  intros HW.
  apply (play_ball_invariant
           (fun b => 25 <= xOf (ball_position b) <= W - 25)).
  - intros b _. apply stepBall_between_walls. exact HW.
  - intros x y s Hs. exact Hs.
  - cbn. split; [| assert (E : W / 2 == W * (1 # 2)) by field; rewrite E; lra].
    assert (E : W / 2 == W * (1 # 2)) by field. rewrite E. lra.
  - rewrite startGame_ball. cbn.
    assert (E : W / 2 == W * (1 # 2)) by field. rewrite E. lra.
Qed.

Lemma stepBall_velocity_bounds (b : Ball) :
  Qabs (xOf (ball_velocity b)) <= 4 ->
  -5 <= yOf (ball_velocity b) <= 29.7 ->
  Qabs (xOf (ball_velocity (stepBall W H b))) <= 4 /\
  -5 <= yOf (ball_velocity (stepBall W H b)) <= 29.7.
Proof.
  intros Hx Hy. apply Qabs_Qle_condition in Hx.
  destruct (stepBall_vertical W H b) as [_ Hv]. rewrite Hv. cbn.
  split; [| lra].
  apply Qabs_Qle_condition.
  unfold stepBall, rightBoundary, leftBoundary.
  set (v := xOf (ball_velocity b)) in *.
  assert (Habs : 0 <= Qabs (v * 0.95) <= 4).
  { split; [apply Qabs_nonneg |]. apply Qabs_Qle_condition. lra. }
  assert (Habs' : forall q, 0 <= q <= 4 -> 0 <= Qabs (q * 0.7) <= 4).
  { intros q Hq. split; [apply Qabs_nonneg |]. apply Qabs_Qle_condition. lra. }
  unfold applyFriction, updatePosition, applyGravity.
  repeat match goal with
         | |- context [if ?c then _ else _] => destruct c
         end;
    cbn [xOf yOf ball_velocity ball_position ball_radius]; fold v;
    try (specialize (Habs' _ Habs)); lra.
Qed.

Lemma touchUpdater_velocity_bounds (x y : Q) (s : GameState) :
  Qabs (xOf (ball_velocity (ball (touchUpdater x y s)))) <= 4 /\
  -5 <= yOf (ball_velocity (ball (touchUpdater x y s))) <= 29.7.
Proof.
  destruct (touchUpdater_velocity x y s) as [Hvx Hvy]. rewrite Hvx, Hvy.
  split; [| lra].
  apply Qabs_Qle_condition.
  set (e := xOf (ball_velocity (ball s)) * 0.7 + _).
  destruct (Qmin_cases 4 e) as [[Hc Hm] | [Hc Hm]];
    destruct (Qmax_cases (-4) (Qmin 4 e)) as [[Hd Hm'] | [Hd Hm']];
    rewrite Hm'; lra.
Qed.

(** X2.  All along a run the horizontal speed of the ball is at most 4, the
    ball never rises faster than 5 a tick and never falls faster than 29.7
    a tick, the speed at which the damping of a tick takes away the gravity
    it adds. *)
Theorem velocity_bounded_during_run (s0 : GameState) (inputs : list Input)
    (rnd : nat -> Q) (n : nat) :
  let b := ball (fst (play W H inputs (settle (startGame W H s0)) rnd n)) in
  Qabs (xOf (ball_velocity b)) <= 4 /\
  -5 <= yOf (ball_velocity b) <= 29.7.
Proof.
  apply (play_ball_invariant
           (fun b => Qabs (xOf (ball_velocity b)) <= 4 /\
                     -5 <= yOf (ball_velocity b) <= 29.7)).
  - intros b [Hx Hy]. apply stepBall_velocity_bounds; assumption.
  - intros x y s _. apply touchUpdater_velocity_bounds.
  - cbn [xOf yOf ball_velocity].
    split; [apply Qabs_Qle_condition; lra | lra].
  - rewrite startGame_ball. cbn [xOf yOf ball_velocity].
    split; [apply Qabs_Qle_condition; lra | lra].
Qed.

(** ** The world after the game is over *)

Lemma step_idle (i : Input) (s : GameState) (rnd : nat -> Q) (n : nat) :
  isContinue i = false -> currentScreen s <> playing ->
  step W H i s rnd n = (s, n).
Proof.
  intros Hi Hs. destruct i as [now | x y |]; cbn [step].
  - rewrite updatePhysics_idle by exact Hs. reflexivity.
  - unfold retR, handleTouch. destruct (decide _); [contradiction | reflexivity].
  - discriminate.
Qed.

Lemma play_idle (inputs : list Input) (s : GameState) (rnd : nat -> Q)
    (n : nat) :
  currentScreen s <> playing ->
  forallb (fun i => negb (isContinue i)) inputs = true ->
  play W H inputs s rnd n = (s, n).
Proof.
  intros Hs. induction inputs as [| i rest IH]; intros Hin; cbn [play].
  - reflexivity.
  - cbn in Hin. apply andb_true_iff in Hin. destruct Hin as [Hi Hrest].
    apply negb_true_iff in Hi.
    unfold bindR. rewrite (step_idle i s rnd n Hi Hs). apply IH. exact Hrest.
Qed.

(** X3.  Outside of the playing screen the world is frozen: ticks and taps
    change nothing at all, and no random number is drawn; only a continue
    (or a new game) sets it going again. *)
Theorem world_frozen_when_not_playing (inputs : list Input) (s : GameState)
    (rnd : nat -> Q) (n : nat) :
  currentScreen s <> playing ->
  forallb (fun i => negb (isContinue i)) inputs = true ->
  play W H inputs s rnd n = (s, n) /\
  fst (runCoins W H inputs s rnd n) = 0%Z.
Proof.
  intros Hs Hin. split; [apply play_idle; assumption |].
  pose proof (play_balance W H inputs s rnd n) as Hbal.
  rewrite play_idle in Hbal by assumption. cbn [fst] in Hbal. lia.
Qed.

(** ** The score *)

Lemma tick_score (now : Z) (s : GameState) (rnd : nat -> Q) (n : nat) :
  currentScreen s = playing ->
  score (fst (updatePhysics W H now s rnd n)) = (score s + 1)%Z.
Proof.
  intros Hp. rewrite updatePhysics_playing by exact Hp.
  rewrite physicsUpdater_unfold.
  destruct (coinCollection_fields W H
              (fst (physicsBeforeCollection W H now s rnd n)))
    as (_ & _ & _ & -> & _).
  apply before_collection_fields.
Qed.

Lemma step_score (i : Input) (s : GameState) (rnd : nat -> Q) (n : nat) :
  score (fst (step W H i s rnd n)) =
    (if isTick i && bool_decide (currentScreen s = playing)
     then score s + 1 else score s)%Z.
Proof.
  destruct i as [now | x y |]; cbn [step isTick andb].
  - destruct (decide (currentScreen s = playing)) as [Hp | Hp].
    + rewrite bool_decide_eq_true_2 by exact Hp. apply tick_score. exact Hp.
    + rewrite bool_decide_eq_false_2 by exact Hp.
      rewrite updatePhysics_idle by exact Hp. reflexivity.
  - unfold retR, handleTouch; cbn [fst]. destruct (decide _); reflexivity.
  - reflexivity.
Qed.

(** X4.  The score counts the ticks played: over any inputs it never goes
    down and grows by at most one for each tick; and as long as the game
    is still on, with no continue in between, it has grown by exactly the
    number of ticks. *)
Theorem score_counts_ticks (inputs : list Input) (s : GameState)
    (rnd : nat -> Q) (n : nat) :
  let s' := fst (play W H inputs s rnd n) in
  (score s <= score s' <= score s + countTicks inputs)%Z /\
  (forallb (fun i => negb (isContinue i)) inputs = true ->
   currentScreen s' = playing ->
   score s' = (score s + countTicks inputs)%Z).
Proof.
  cbv zeta. revert s n.
  induction inputs as [| i rest IH]; intros s n; cbn [play].
  - unfold countTicks; cbn. split; [lia | intros; lia].
  - unfold bindR. pose proof (step_score i s rnd n) as Hstep.
    destruct (step W H i s rnd n) as [s1 n1] eqn:Hs1. cbn [fst] in Hstep.
    destruct (IH s1 n1) as [Hbounds Hexact].
    assert (Hcount : countTicks (i :: rest) =
                     ((if isTick i then 1 else 0) + countTicks rest)%Z).
    { unfold countTicks; cbn. destruct (isTick i); cbn [length]; lia. }
    rewrite Hcount. split.
    + destruct (isTick i), (bool_decide (currentScreen s = playing));
        cbn [andb] in Hstep; lia.
    + intros Hin Hplay. cbn in Hin. apply andb_true_iff in Hin.
      destruct Hin as [Hi Hrest]. apply negb_true_iff in Hi.
      specialize (Hexact Hrest Hplay). rewrite Hexact.
      destruct (decide (currentScreen s = playing)) as [Hp | Hp].
      * rewrite bool_decide_eq_true_2 in Hstep by exact Hp.
        rewrite andb_true_r in Hstep. destruct (isTick i); lia.
      * exfalso. rewrite (step_idle i s rnd n Hi Hp) in Hs1.
        injection Hs1 as <- <-.
        rewrite (play_idle rest s rnd n Hp Hrest) in Hplay.
        exact (Hp Hplay).
Qed.

(** ** Collisions *)

(** X5.  A collision is reported only when the ball really overlaps the
    obstacle: some point of the rectangle the obstacle is drawn in lies
    strictly inside the circle of the ball. *)
Theorem collision_means_overlap (b : Ball) (o : Obstacle) :
  0 < obstacle_width o -> 0 < obstacle_height o ->
  hitsObstacle W H b o = true ->
  exists px py,
    insideBox o px py /\
    (xOf (ball_position b) - px) * (xOf (ball_position b) - px) +
    (yOf (ball_position b) - py) * (yOf (ball_position b) - py) < 25 * 25.
Proof.
  intros Hw Hh Hhit. unfold hitsObstacle, distanceLt in Hhit.
  apply andb_true_iff in Hhit. destruct Hhit as [Hpos Hlt].
  apply Qltb_lt in Hpos. apply Qltb_lt in Hlt. cbn [ballRadius BASE_CONFIG] in *.
  set (bx := xOf (ball_position b)) in *. set (by_ := yOf (ball_position b)) in *.
  set (ox := xOf (obstacle_position o)) in *.
  set (oy := yOf (obstacle_position o)) in *.
  set (w := obstacle_width o) in *. set (h := obstacle_height o) in *.
  assert (Hm : exists m, Qmin w h / 2 == m /\ 0 < m /\ m <= w * (1 # 2)
                         /\ m <= h * (1 # 2)).
  { exists (Qmin w h * (1 # 2)). split; [field |].
    destruct (Qmin_cases w h) as [[Hc He] | [Hc He]]; rewrite He;
      repeat split; lra. }
  destruct Hm as (m & Em & Hm0 & Hmw & Hmh).
  rewrite Em in Hpos, Hlt.
  assert (Ew : w / 2 == w * (1 # 2)) by field.
  assert (Eh : h / 2 == h * (1 # 2)) by field.
  rewrite Ew, Eh in Hlt.
  set (dx := bx - (ox + w * (1 # 2))) in *.
  set (dy := by_ - (oy + h * (1 # 2))) in *.
  set (B := 25 + m) in *.
  set (u := dx / B). set (v := dy / B).
  assert (HB : ~ B == 0) by (subst B; lra).
  assert (Edx : dx == B * u) by (subst u; field; exact HB).
  assert (Edy : dy == B * v) by (subst v; field; exact HB).
  assert (Huv : u * u + v * v < 1).
  { rewrite Edx, Edy in Hlt.
    assert (HBB : 0 < B * B) by (subst B; nra).
    nra. }
  assert (Hu : -1 < u < 1) by (split; nra).
  assert (Hv : -1 < v < 1) by (split; nra).
  exists (ox + w * (1 # 2) + m * u), (oy + h * (1 # 2) + m * v).
  split; [split; split; fold ox oy w h; nra |].
  assert (Ex : bx - (ox + w * (1 # 2) + m * u) == 25 * u).
  { transitivity (dx - m * u); [subst dx; ring |]. rewrite Edx. subst B. ring. }
  assert (Ey : by_ - (oy + h * (1 # 2) + m * v) == 25 * v).
  { transitivity (dy - m * v); [subst dy; ring |]. rewrite Edy. subst B. ring. }
  rewrite Ex, Ey. nra.
Qed.

End RunInvariants.

(** ** Claiming the daily rewards *)

Lemma unclaimedCoins_app (a b : list DailyReward) :
  unclaimedCoins (a ++ b) = (unclaimedCoins a + unclaimedCoins b)%Z.
Proof.
  induction a as [| x a IH]; [reflexivity |].
  change (unclaimedCoins ((x :: a) ++ b))
    with ((if claimed x then 0 else reward_coins x) + unclaimedCoins (a ++ b))%Z.
  change (unclaimedCoins (x :: a))
    with ((if claimed x then 0 else reward_coins x) + unclaimedCoins a)%Z.
  lia.
Qed.

Lemma unclaimedCoins_claim (l : list DailyReward) (i : nat) (r : DailyReward) :
  l !! i = Some r -> claimed r = false ->
  unclaimedCoins
    (<[i := mkDailyReward (reward_day r) (reward_coins r)
              (reward_description r) true]> l) =
    (unclaimedCoins l - reward_coins r)%Z.
Proof.
  intros Hi Hc.
  assert (Hlen : (i < length l)%nat) by (apply lookup_lt_is_Some; eauto).
  rewrite insert_take_drop by exact Hlen.
  rewrite <- (take_drop_middle l i r Hi) at 3.
  rewrite !unclaimedCoins_app.
  change (unclaimedCoins (?x :: ?t))
    with ((if claimed x then 0 else reward_coins x) + unclaimedCoins t)%Z.
  cbn [claimed reward_coins]. rewrite Hc. lia.
Qed.

Lemma claimDailyReward_cases (day : Z) (s : GameState) :
  claimDailyReward day s = s \/
  exists i r,
    day = (Z.of_nat i + 1)%Z /\ dailyRewards s !! i = Some r /\
    canClaim i r s = true /\
    claimDailyReward day s =
      with_collectedCoins (collectedCoins s + reward_coins r)%Z
        (with_dailyRewards
           (<[i := mkDailyReward (reward_day r) (reward_coins r)
                     (reward_description r) true]> (dailyRewards s)) s).
Proof.
  unfold claimDailyReward.
  destruct ((0 <=? day - 1)%Z && _) eqn:Hrange; [| left; reflexivity].
  apply andb_true_iff in Hrange. destruct Hrange as [Hlo Hhi].
  apply Z.leb_le in Hlo.
  destruct (dailyRewards s !! Z.to_nat (day - 1)) as [r |] eqn:Hr;
    [| left; reflexivity].
  destruct (negb (claimed r) && (day <=? currentStreak s)%Z) eqn:Hok;
    [| left; reflexivity].
  right. exists (Z.to_nat (day - 1)), r.
  assert (Hday : day = (Z.of_nat (Z.to_nat (day - 1)) + 1)%Z) by lia.
  split; [exact Hday |]. split; [exact Hr |]. split; [| reflexivity].
  unfold canClaim. rewrite <- Hday.
  apply andb_true_iff in Hok. destruct Hok as [Hc Hs].
  rewrite Hs, Hc. reflexivity.
Qed.

Lemma claimDailyReward_conserves (day : Z) (s : GameState) :
  let s' := claimDailyReward day s in
  (collectedCoins s' + unclaimedCoins (dailyRewards s'))%Z =
    (collectedCoins s + unclaimedCoins (dailyRewards s))%Z /\
  currentStreak s' = currentStreak s /\
  length (dailyRewards s') = length (dailyRewards s).
Proof.
  cbv zeta.
  destruct (claimDailyReward_cases day s)
    as [-> | (i & r & _ & Hr & Hcan & ->)]; [repeat split |].
  cbn [collectedCoins dailyRewards currentStreak with_collectedCoins
         with_dailyRewards].
  unfold canClaim in Hcan. apply andb_true_iff in Hcan.
  destruct Hcan as [_ Hc]. apply negb_true_iff in Hc.
  rewrite (unclaimedCoins_claim _ i r Hr Hc), length_insert.
  repeat split. lia.
Qed.

(** X6.  Claiming moves coins from the rewards to the balance and creates
    none: over any sequence of claims the balance plus the coins of the
    rewards still unclaimed stays what it was. *)
Theorem daily_rewards_conserved (days : list Z) (s : GameState) :
  let s' := fold_left (fun st day => claimDailyReward day st) days s in
  (collectedCoins s' + unclaimedCoins (dailyRewards s'))%Z =
    (collectedCoins s + unclaimedCoins (dailyRewards s))%Z /\
  currentStreak s' = currentStreak s /\
  length (dailyRewards s') = length (dailyRewards s).
Proof.
  cbv zeta. revert s. induction days as [| day rest IH]; intros s; cbn.
  - repeat split.
  - destruct (IH (claimDailyReward day s)) as (Hsum & Hstreak & Hlen).
    destruct (claimDailyReward_conserves day s) as (Hsum1 & Hstreak1 & Hlen1).
    repeat split; congruence.
Qed.

(** X7.  A claim goes through exactly for a reward the menu offers: one of
    a day within the streak that is not claimed yet.  It then adds the
    coins of that reward and marks it claimed, so that claiming the same
    day again does nothing. *)
Theorem claim_goes_through_once (day : Z) (s : GameState) :
  let s' := claimDailyReward day s in
  (forall i r,
     day = (Z.of_nat i + 1)%Z -> dailyRewards s !! i = Some r ->
     canClaim i r s = true ->
     collectedCoins s' = (collectedCoins s + reward_coins r)%Z /\
     dailyRewards s' =
       <[i := mkDailyReward (reward_day r) (reward_coins r)
                (reward_description r) true]> (dailyRewards s)) /\
  ((forall i r,
      day = (Z.of_nat i + 1)%Z -> dailyRewards s !! i = Some r ->
      canClaim i r s = false) -> s' = s) /\
  claimDailyReward day s' = s'.
Proof.
  cbv zeta.
  destruct (claimDailyReward_cases day s)
    as [Hsame | (i & r & Hday & Hr & Hcan & Heq)].
  - rewrite Hsame. split; [| split; [reflexivity | exact Hsame]].
    intros i r Hday Hr Hcan. exfalso.
    unfold claimDailyReward in Hsame. subst day.
    replace (Z.of_nat i + 1 - 1)%Z with (Z.of_nat i) in Hsame by lia.
    rewrite Nat2Z.id, Hr in Hsame.
    assert (Hi : (i < length (dailyRewards s))%nat)
      by (apply lookup_lt_is_Some; eauto).
    assert (Hrange : (0 <=? Z.of_nat i)%Z
                     && (Z.of_nat i <? Z.of_nat (length (dailyRewards s)))%Z
                     = true).
    { apply andb_true_iff. split; [apply Z.leb_le | apply Z.ltb_lt]; lia. }
    rewrite Hrange in Hsame.
    unfold canClaim in Hcan. rewrite andb_comm in Hcan. rewrite Hcan in Hsame.
    apply (f_equal dailyRewards) in Hsame. cbn in Hsame.
    apply (f_equal (fun l => claimed <$> l !! i)) in Hsame.
    rewrite list_lookup_insert_eq in Hsame by exact Hi. rewrite Hr in Hsame.
    cbn in Hsame. apply andb_true_iff in Hcan. destruct Hcan as [Hc _].
    apply negb_true_iff in Hc. congruence.
  - split; [| split].
    + intros i' r' Hday' Hr' _.
      assert (i' = i) by lia. subst i'. rewrite Hr in Hr'. injection Hr' as <-.
      rewrite Heq. split; reflexivity.
    + intros Hnone. rewrite (Hnone i r Hday Hr) in Hcan. discriminate.
    + rewrite Heq.
      assert (Hi : (i < length (dailyRewards s))%nat)
        by (apply lookup_lt_is_Some; eauto).
      unfold claimDailyReward at 1.
      cbn [dailyRewards currentStreak collectedCoins with_collectedCoins
             with_dailyRewards].
      subst day. replace (Z.of_nat i + 1 - 1)%Z with (Z.of_nat i) by lia.
      rewrite Nat2Z.id, list_lookup_insert_eq by exact Hi.
      destruct (_ && _); reflexivity.
Qed.

(** ** The store over many actions *)

Lemma priceOf_nonneg (skinId : string) : (0 <= priceOf skinId)%Z.
Proof.
  unfold priceOf.
  destruct (List.find _ BALL_SKINS) as [skin |] eqn:Hfind; [| lia].
  apply List.find_some in Hfind. destruct Hfind as [Hin _].
  assert (Hall : List.Forall (fun k => (0 <= coinPrice k)%Z) BALL_SKINS)
    by (repeat constructor; cbn; lia).
  rewrite List.Forall_forall in Hall. exact (Hall skin Hin).
Qed.

Lemma purchaseSkinWithCoins_cases (skinId : string) (s : GameState) :
  purchaseSkinWithCoins skinId s = s \/
  ((skinId ∉ unlockedSkins s) /\ (priceOf skinId <= collectedCoins s)%Z /\
   purchaseSkinWithCoins skinId s =
     with_selectedSkin skinId
       (with_unlockedSkins (unlockedSkins s ++ [skinId])
          (with_collectedCoins (collectedCoins s - priceOf skinId)%Z s))).
Proof.
  unfold purchaseSkinWithCoins, priceOf.
  destruct (List.find _ BALL_SKINS) as [skin |]; [| left; reflexivity].
  destruct ((coinPrice skin <=? collectedCoins s)%Z && _) eqn:Hok;
    [| left; reflexivity].
  apply andb_true_iff in Hok. destruct Hok as [Hle Hnew].
  apply Z.leb_le in Hle. apply negb_true_iff, bool_decide_eq_false in Hnew.
  right. repeat split; assumption.
Qed.

Lemma ownedValue_snoc (skins : list string) (k : string) :
  ownedValue (skins ++ [k]) = (ownedValue skins + priceOf k)%Z.
Proof.
  induction skins as [| x skins IH]; cbn; [lia |].
  unfold ownedValue in IH. cbn in IH. rewrite IH. unfold ownedValue. lia.
Qed.

Lemma storeStep_facts (a : StoreAction) (s : GameState) :
  let s' := storeStep a s in
  (selectedSkin s ∈ unlockedSkins s -> selectedSkin s' ∈ unlockedSkins s') /\
  (paysWithCoins a = true -> NoDup (unlockedSkins s) ->
   NoDup (unlockedSkins s')) /\
  (paysWithCoins a = true ->
   (collectedCoins s' + ownedValue (unlockedSkins s'))%Z =
     (collectedCoins s + ownedValue (unlockedSkins s))%Z) /\
  (collectedCoins s' <= collectedCoins s)%Z /\
  ((0 <= collectedCoins s)%Z -> (0 <= collectedCoins s')%Z).
Proof.
  cbv zeta. destruct a as [k | k | k]; cbn [storeStep paysWithCoins].
  - destruct (purchaseSkinWithCoins_cases k s) as [-> | (Hnew & Hle & ->)].
    + repeat split; auto; lia.
    + cbn [selectedSkin unlockedSkins collectedCoins with_selectedSkin
             with_unlockedSkins with_collectedCoins].
      pose proof (priceOf_nonneg k) as Hprice.
      split; [intros _; apply elem_of_app; right; apply list_elem_of_singleton;
              reflexivity |].
      split; [intros _ Hnd; apply NoDup_app; repeat split;
              [exact Hnd | | apply NoDup_singleton] |].
      { intros x Hx Hx'. apply list_elem_of_singleton in Hx'. subst x.
        exact (Hnew Hx). }
      split; [intros _; rewrite ownedValue_snoc; lia |].
      split; lia.
  - unfold purchaseSkinWithCash.
    cbn [selectedSkin unlockedSkins collectedCoins with_selectedSkin
           with_unlockedSkins].
    split; [intros _; apply elem_of_app; right; apply list_elem_of_singleton;
            reflexivity |].
    repeat split; (discriminate || lia || auto).
  - unfold selectSkin. destruct (bool_decide _) eqn:Hk.
    + apply bool_decide_eq_true in Hk.
      cbn [selectedSkin unlockedSkins collectedCoins with_selectedSkin].
      repeat split; auto; lia.
    + repeat split; auto; lia.
Qed.

(** X8.  Whatever the player does in the store, the selected skin is one of
    the unlocked skins; and as long as no skin is bought for cash, no skin
    is unlocked twice. *)
Theorem store_keeps_skins_consistent (actions : list StoreAction)
    (s : GameState) :
  let s' := fold_left (fun st a => storeStep a st) actions s in
  (selectedSkin s ∈ unlockedSkins s -> selectedSkin s' ∈ unlockedSkins s') /\
  (forallb paysWithCoins actions = true -> NoDup (unlockedSkins s) ->
   NoDup (unlockedSkins s')).
Proof.
  cbv zeta. revert s. induction actions as [| a rest IH]; intros s; cbn.
  - split; auto.
  - destruct (IH (storeStep a s)) as [Hsel Hnd].
    destruct (storeStep_facts a s) as (Hsel1 & Hnd1 & _).
    split; [auto |].
    intros Hpay Hs. apply andb_true_iff in Hpay. destruct Hpay as [Ha Hrest].
    auto.
Qed.

(** X9.  Coins are spent, never made, in the store: the balance never goes
    up and a balance that is not negative stays so; and as long as no skin
    is bought for cash, the balance plus the catalogue prices of the
    unlocked skins stays what it was. *)
Theorem store_conserves_coins (actions : list StoreAction) (s : GameState) :
  let s' := fold_left (fun st a => storeStep a st) actions s in
  (collectedCoins s' <= collectedCoins s)%Z /\
  ((0 <= collectedCoins s)%Z -> (0 <= collectedCoins s')%Z) /\
  (forallb paysWithCoins actions = true ->
   (collectedCoins s' + ownedValue (unlockedSkins s'))%Z =
     (collectedCoins s + ownedValue (unlockedSkins s))%Z).
Proof.
  cbv zeta. revert s. induction actions as [| a rest IH]; intros s; cbn.
  - repeat split; auto; lia.
  - destruct (IH (storeStep a s)) as (Hle & Hpos & Hsum).
    destruct (storeStep_facts a s) as (_ & _ & Hsum1 & Hle1 & Hpos1).
    split; [lia |]. split; [auto |].
    intros Hpay. apply andb_true_iff in Hpay. destruct Hpay as [Ha Hrest].
    rewrite (Hsum Hrest). auto.
Qed.

(** ** New players on the leaderboard *)

Lemma updatedLeaderboard_new (now t c : Z) (s : GameState) :
  list_find (fun x => entry_playerName x = playerName s) (leaderboard s) = None ->
  updatedLeaderboard now t c s =
    leaderboard s ++
    [ mkLeaderboardEntry (timestampString now) (playerName s) t c now now
        (selectedSkin s) (selectedSkin s) ].
Proof. intros Hnone. unfold updatedLeaderboard. rewrite Hnone. reflexivity. Qed.

(** X10.  After a submission the player has an entry whose best time and
    best coin count are at least the submitted ones; a leaderboard with one
    entry a name keeps one entry a name, and grows by the new entry only
    when the player had none. *)
Theorem submission_gives_one_entry (now t c : Z) (s : GameState) :
  let board := leaderboard (submitScore now t c s) in
  (exists e,
     e ∈ board /\ entry_playerName e = playerName s /\
     (t <= bestTime e)%Z /\ (c <= bestCoins e)%Z) /\
  (NoDup (map entry_playerName (leaderboard s)) ->
   NoDup (map entry_playerName board)) /\
  length board =
    (if bool_decide (playerName s ∈ map entry_playerName (leaderboard s))
     then length (leaderboard s) else S (length (leaderboard s))).
Proof.
  cbv zeta. unfold submitScore; cbn [leaderboard with_leaderboard].
  destruct (list_find (fun x => entry_playerName x = playerName s)
              (leaderboard s)) as [[i e] |] eqn:Hfind.
  - destruct (updatedLeaderboard_existing now t c s i e Hfind)
      as (e' & -> & Hname & Ht & Hc).
    apply list_find_Some in Hfind. destruct Hfind as (Hi & HP & _).
    assert (Hlen : (i < length (leaderboard s))%nat)
      by (apply lookup_lt_is_Some; eauto).
    split; [| split].
    + exists e'. split; [| split; [congruence | lia]].
      apply list_elem_of_lookup. exists i. apply list_lookup_insert_eq, Hlen.
    + intros Hnd. rewrite list_fmap_insert, Hname.
      rewrite list_insert_id; [exact Hnd |].
      rewrite list_lookup_fmap, Hi. reflexivity.
    + rewrite length_insert, bool_decide_eq_true_2; [reflexivity |].
      rewrite <- HP. apply list_elem_of_fmap. exists e.
      split; [reflexivity |]. apply list_elem_of_lookup. eauto.
  - rewrite (updatedLeaderboard_new now t c s Hfind).
    apply list_find_None in Hfind.
    assert (Hnot : playerName s ∉ map entry_playerName (leaderboard s)).
    { intros Hin. apply list_elem_of_fmap in Hin.
      destruct Hin as (e & He & Hin).
      rewrite Forall_forall in Hfind. exact (Hfind e Hin (eq_sym He)). }
    split; [| split].
    + eexists. split; [apply elem_of_app; right; apply list_elem_of_singleton;
                       reflexivity |].
      cbn. repeat split; lia.
    + intros Hnd. rewrite map_app. cbn [map entry_playerName].
      apply NoDup_app. repeat split; [exact Hnd | | apply NoDup_singleton].
      intros x Hx Hx'. apply list_elem_of_singleton in Hx'. subst x.
      exact (Hnot Hx).
    + rewrite length_app, bool_decide_eq_false_2 by exact Hnot. cbn. lia.
Qed.

(** ** The leaderboard screen *)

Lemma insertBy_Permutation {A} (compare : A -> A -> Z) (x : A) (l : list A) :
  insertBy compare x l ≡ₚ x :: l.
Proof.
  induction l as [| y l IH]; cbn; [reflexivity |].
  destruct (compare x y <=? 0)%Z; [reflexivity |].
  rewrite IH. apply Permutation_swap.
Qed.

Lemma sortBy_Permutation {A} (compare : A -> A -> Z) (l : list A) :
  sortBy compare l ≡ₚ l.
Proof.
  induction l as [| x l IH]; cbn; [reflexivity |].
  rewrite insertBy_Permutation, IH. reflexivity.
Qed.

Section LeaderboardOrder.

Variable category : LeaderboardCategory.

Let above (a b : LeaderboardEntry) : Prop :=
  (metricOf category b <= metricOf category a)%Z.

Lemma insertBy_sorted (x : LeaderboardEntry) (l : list LeaderboardEntry) :
  StronglySorted above l ->
  StronglySorted above (insertBy (compareEntries category) x l).
Proof.
  induction 1 as [| y l Hl IH Hy]; cbn.
  - repeat constructor.
  - unfold compareEntries at 1.
    destruct (_ <=? 0)%Z eqn:Hcmp.
    + apply Z.leb_le in Hcmp.
      constructor; [constructor; assumption |].
      constructor; [unfold above; lia |].
      eapply Forall_impl; [exact Hy |]. intros z Hz. unfold above in *. lia.
    + apply Z.leb_gt in Hcmp. constructor; [exact IH |].
      rewrite insertBy_Permutation. constructor; [unfold above; lia | exact Hy].
Qed.

Lemma sortBy_sorted (l : list LeaderboardEntry) :
  StronglySorted above (sortBy (compareEntries category) l).
Proof.
  induction l as [| x l IH]; cbn; [constructor |].
  apply insertBy_sorted, IH.
Qed.

Lemma sortBy_already_sorted (l : list LeaderboardEntry) :
  StronglySorted above l -> sortBy (compareEntries category) l = l.
Proof.
  induction 1 as [| x l Hl IH Hx]; [reflexivity |].
  change (sortBy (compareEntries category) (x :: l))
    with (insertBy (compareEntries category) x
            (sortBy (compareEntries category) l)).
  rewrite IH. destruct l as [| y l]; cbn; [reflexivity |].
  inversion Hx as [| ? ? Hxy _]; subst.
  unfold compareEntries, above in *.
  rewrite (proj2 (Z.leb_le _ _)) by lia. reflexivity.
Qed.

End LeaderboardOrder.

(** X11.  The leaderboard screen shows at most ten entries, all taken from
    the leaderboard, in descending order of the metric of the chosen
    category; every entry it leaves out has a metric no larger than any
    entry it shows; and a leaderboard that is already in descending order
    is shown in its own order, ties included. *)
Theorem leaderboard_screen_shows_top_ten (s : GameState) :
  let metric := metricOf (leaderboardCategory s) in
  let shown := sortedLeaderboard s in
  length shown = Nat.min 10 (length (leaderboard s)) /\
  StronglySorted (fun a b => (metric b <= metric a)%Z) shown /\
  (exists hidden,
     shown ++ hidden ≡ₚ leaderboard s /\
     forall a b, a ∈ shown -> b ∈ hidden -> (metric b <= metric a)%Z) /\
  (StronglySorted (fun a b => (metric b <= metric a)%Z) (leaderboard s) ->
   shown = take 10 (leaderboard s)).
Proof.
  cbv zeta. unfold sortedLeaderboard.
  set (sorted := sortBy _ (leaderboard s)).
  pose proof (sortBy_sorted (leaderboardCategory s) (leaderboard s)) as Hsorted.
  pose proof (sortBy_Permutation (compareEntries (leaderboardCategory s))
                (leaderboard s)) as Hperm.
  fold sorted in Hsorted, Hperm.
  split; [rewrite length_take, <- Hperm; reflexivity |].
  rewrite <- (take_drop 10 sorted) in Hsorted.
  split; [eapply StronglySorted_app_1_l; exact Hsorted |].
  split.
  - exists (drop 10 sorted). split; [rewrite take_drop; exact Hperm |].
    intros a b Ha Hb.
    exact (StronglySorted_app_1_elem_of _ _ _ _ _ Hsorted Ha Hb).
  - intros Halready. subst sorted.
    rewrite (sortBy_already_sorted _ _ Halready). reflexivity.
Qed.

(** ** The end of a run *)

Lemma last_nonempty_default {A} (x : A) (l : list A) (d d' : A) :
  List.last (x :: l) d = List.last (x :: l) d'.
Proof.
  revert x. induction l as [| y l IH]; intros x; [reflexivity |].
  change (List.last (y :: l) d = List.last (y :: l) d'). apply IH.
Qed.

Lemma settle_last (s : GameState) (pending : list Z) :
  collectedCoins (settle (s, pending)) = List.last pending (collectedCoins s).
Proof.
  unfold settle; cbn [fst snd]. revert s.
  induction pending as [| p rest IH]; intros s; [reflexivity |].
  cbn [fold_left]. rewrite IH. destruct rest as [| z rest]; [reflexivity |].
  change (List.last (p :: z :: rest) (collectedCoins s))
    with (List.last (z :: rest) (collectedCoins s)).
  apply last_nonempty_default.
Qed.

Lemma settle_keeps (s : GameState) (pending : list Z) :
  let s' := settle (s, pending) in
  score s' = score s /\ highScore s' = highScore s /\
  currentStreak s' = currentStreak s /\ lastLoginDate s' = lastLoginDate s /\
  dailyRewards s' = dailyRewards s /\ achievements s' = achievements s /\
  leaderboard s' = leaderboard s.
Proof.
  cbv zeta. unfold settle; cbn [fst snd]. revert s.
  induction pending as [| p rest IH]; intros s; cbn [fold_left].
  - repeat split.
  - destruct (IH (with_collectedCoins p s)) as (-> & -> & -> & -> & -> & -> & ->).
    repeat split.
Qed.

Lemma andThen_update_keeps (o : Outcome) (id : string) (x : Z) :
  let o' := andThen o (updateAchievementProgress id x) in
  score (fst o') = score (fst o) /\
  highScore (fst o') = highScore (fst o) /\
  collectedCoins (fst o') = collectedCoins (fst o) /\
  leaderboard (fst o') = leaderboard (fst o).
Proof. cbv zeta. unfold andThen, updateAchievementProgress. repeat split. Qed.

(** X12.  The effect of the game-over screen leaves the larger of the old
    high score and the seconds of the run as the high score, so the high
    score never goes down; the banner of a new high score then shows
    exactly when the run lasted at least a second and at least as long as
    the old high score, a run that only equals it included. *)
Theorem high_score_is_best_run (now : Z) (s : GameState) :
  currentScreen s = gameOver ->
  let s' := settle (gameOverEffect now s) in
  let finalScore := (score s / 60)%Z in
  highScore s' = Z.max (highScore s) finalScore /\
  score s' = score s /\
  (showsNewHighScore s' = true <->
   (0 < finalScore)%Z /\ (highScore s <= finalScore)%Z).
Proof.
  intros Hover. cbv zeta.
  destruct (gameOverEffect now s) as [s1 pending] eqn:Hout.
  destruct (settle_keeps s1 pending) as (Hscore & Hhigh & _).
  assert (Hs1 : score s1 = score s /\
                highScore s1 = Z.max (highScore s) (score s / 60)).
  { apply (f_equal fst) in Hout. cbn [fst] in Hout. subst s1.
    unfold gameOverEffect, gameOverSubmission.
    destruct (decide _) as [_ | Hno]; [| contradiction].
    repeat match goal with
           | |- context [fst (andThen ?o (updateAchievementProgress ?i ?x))] =>
               destruct (andThen_update_keeps o i x) as (-> & -> & _)
           end.
    unfold updateAchievementProgress, submitScore; cbn [fst].
    destruct (highScore s <? score s / 60)%Z eqn:Hlt; cbn;
      [apply Z.ltb_lt in Hlt | apply Z.ltb_ge in Hlt]; split; lia. }
  destruct Hs1 as [Hscore1 Hhigh1].
  rewrite Hhigh, Hscore, Hhigh1, Hscore1.
  split; [reflexivity |]. split; [reflexivity |].
  unfold showsNewHighScore. rewrite Hhigh, Hscore, Hhigh1, Hscore1.
  rewrite andb_true_iff, Z.eqb_eq, Z.ltb_lt. lia.
Qed.

(** ** The rewards of the achievements of one handler *)

Lemma achievementStep_count (id : string) (x balance : Z) (a : Achievement) :
  let out := achievementStep id x balance a in
  (length (snd out) + (if completed a then 1 else 0) =
   (if completed (fst out) then 1 else 0))%nat /\
  reward (fst out) = reward a /\
  (forall p, p ∈ snd out -> p = (balance + reward a)%Z).
Proof.
  cbv zeta. rewrite achievementStep_grants.
  pose proof (achievementStep_stays_completed id x balance a) as Hkeep.
  split; [| split; [apply achievementStep_reward |]].
  - destruct (completed a); [rewrite Hkeep by reflexivity; reflexivity |].
    destruct (completed (fst _)); reflexivity.
  - intros p Hp. destruct (negb _ && _); [| inversion Hp].
    apply list_elem_of_singleton in Hp. exact Hp.
Qed.

Lemma countCompleted_cons (a : Achievement) (l : list Achievement) :
  countCompleted (a :: l) =
    ((if completed a then 1 else 0) + countCompleted l)%nat.
Proof. unfold countCompleted; cbn. destruct (completed a); reflexivity. Qed.

Lemma updateAchievementProgress_count (id : string) (x : Z) (s : GameState) :
  let out := updateAchievementProgress id x s in
  (length (snd out) + countCompleted (achievements s) =
   countCompleted (achievements (fst out)))%nat /\
  map reward (achievements (fst out)) = map reward (achievements s) /\
  collectedCoins (fst out) = collectedCoins s /\
  (forall p, p ∈ snd out ->
     exists r, r ∈ map reward (achievements s) /\ p = (collectedCoins s + r)%Z).
Proof.
  cbv zeta. unfold updateAchievementProgress.
  cbn [fst snd achievements collectedCoins with_achievements].
  rewrite !map_map.
  induction (achievements s) as [| a l IH]; cbn [map concat].
  - repeat split. intros p Hp. inversion Hp.
  - destruct IH as (Hcount & Hrew & _ & Hmem).
    destruct (achievementStep_count id x (collectedCoins s) a)
      as (Hc1 & Hr1 & Hm1).
    rewrite !countCompleted_cons, length_app.
    split; [lia |]. split; [cbn [map]; congruence |]. split; [reflexivity |].
    intros p Hp. apply elem_of_app in Hp. destruct Hp as [Hp | Hp].
    + exists (reward a). split; [left | exact (Hm1 p Hp)].
    + destruct (Hmem p Hp) as (r & Hr & ->). exists r. split; [right |];
        auto.
Qed.

(** What a chain of achievement updates keeps true of its outcome, seen
    from the state [s] the chain started in. *)
Lemma chain_of_updates (s : GameState) (o : Outcome) (id : string) (x : Z) :
  ((length (snd o) + countCompleted (achievements s) =
    countCompleted (achievements (fst o)))%nat /\
   map reward (achievements (fst o)) = map reward (achievements s) /\
   collectedCoins (fst o) = collectedCoins s /\
   (forall p, p ∈ snd o ->
      exists r, r ∈ map reward (achievements s) /\
                p = (collectedCoins s + r)%Z)) ->
  let o' := andThen o (updateAchievementProgress id x) in
  (length (snd o') + countCompleted (achievements s) =
   countCompleted (achievements (fst o')))%nat /\
  map reward (achievements (fst o')) = map reward (achievements s) /\
  collectedCoins (fst o') = collectedCoins s /\
  (forall p, p ∈ snd o' ->
     exists r, r ∈ map reward (achievements s) /\ p = (collectedCoins s + r)%Z).
Proof.
  intros (Hcount & Hrew & Hbal & Hmem). cbv zeta. unfold andThen.
  destruct (updateAchievementProgress_count id x (fst o))
    as (Hc1 & Hr1 & Hb1 & Hm1).
  destruct (updateAchievementProgress id x (fst o)) as [s1 more].
  cbn [fst snd] in *. rewrite length_app.
  split; [lia |]. split; [congruence |]. split; [congruence |].
  intros p Hp. apply elem_of_app in Hp. destruct Hp as [Hp | Hp].
  - exact (Hmem p Hp).
  - destruct (Hm1 p Hp) as (r & Hr & ->). exists r.
    rewrite <- Hrew, <- Hbal. auto.
Qed.

(** X13.  At the end of a run every achievement the run completes schedules
    its reward, each one as the balance of that moment plus the reward; the
    scheduled assignments then run one after the other, so the balance
    ends as the last of them: of several achievements completed by one
    run, only the last one's reward reaches the balance. *)
Theorem game_over_pays_last_reward_only (now : Z) (s : GameState) :
  let out := gameOverEffect now s in
  (length (snd out) + countCompleted (achievements s) =
   countCompleted (achievements (fst out)))%nat /\
  (forall p, p ∈ snd out ->
     exists r, r ∈ map reward (achievements s) /\
               p = (collectedCoins s + r)%Z) /\
  collectedCoins (settle out) = List.last (snd out) (collectedCoins s).
Proof.
  cbv zeta.
  assert (Hinv :
    let out := gameOverEffect now s in
    (length (snd out) + countCompleted (achievements s) =
     countCompleted (achievements (fst out)))%nat /\
    map reward (achievements (fst out)) = map reward (achievements s) /\
    collectedCoins (fst out) = collectedCoins s /\
    (forall p, p ∈ snd out ->
       exists r, r ∈ map reward (achievements s) /\
                 p = (collectedCoins s + r)%Z)).
  { cbv zeta. unfold gameOverEffect, gameOverSubmission.
    destruct (decide _) as [_ | _].
    - do 4 apply chain_of_updates.
      match goal with
      | |- context [updateAchievementProgress ?i ?x ?s1] =>
          pose proof (updateAchievementProgress_count i x s1) as Hfirst;
          assert (Hach : achievements s1 = achievements s)
            by (clear Hfirst; destruct (highScore s <? _)%Z; reflexivity);
          assert (Hbal : collectedCoins s1 = collectedCoins s)
            by (clear Hfirst; destruct (highScore s <? _)%Z; reflexivity)
      end.
      cbv zeta in Hfirst. rewrite Hach, Hbal in Hfirst. exact Hfirst.
    - cbn [fst snd]. repeat split. intros p Hp. inversion Hp. }
  cbv zeta in Hinv. destruct Hinv as (Hcount & _ & Hbal & Hmem).
  split; [exact Hcount |]. split; [exact Hmem |].
  destruct (gameOverEffect now s) as [s1 pending]. cbn [fst snd] in *.
  rewrite settle_last, Hbal. reflexivity.
Qed.

(** ** The start of the application *)

(** X14.  At the start of the application the daily check reads the initial
    state, in which no login is recorded, and not the data just loaded: so
    whatever streak and last login were saved, the streak is 1 and the last
    login is today afterwards, the saved daily rewards are kept as they
    are, and no reward but the one of day 1 can be claimed. *)
Theorem startup_sets_streak_to_one (W H : Q) (d : SavedData)
    (today yesterday : string) (prev : GameState) :
  today <> "" ->
  let s' := settle (loadSavedData W H d today yesterday prev) in
  currentStreak s' = 1%Z /\
  lastLoginDate s' = today /\
  dailyRewards s' = savedDailyRewards d /\
  (forall day, day <> 1%Z -> claimDailyReward day s' = s').
Proof.
  intros Htoday. cbv zeta.
  assert (Hfields :
    let s' := settle (loadSavedData W H d today yesterday prev) in
    currentStreak s' = 1%Z /\ lastLoginDate s' = today /\
    dailyRewards s' = savedDailyRewards d).
  { cbv zeta. unfold loadSavedData, checkDailyLoginRewardIn.
    cbn [lastLoginDate currentStreak initialGameState].
    rewrite bool_decide_eq_true_2 by (intros E; exact (Htoday (eq_sym E))).
    assert (Hone : (if bool_decide ("" = yesterday) then (0 + 1)%Z else 1%Z)
                   = 1%Z) by (destruct (bool_decide _); reflexivity).
    rewrite Hone. cbn [Z.ltb Z.compare Pos.compare Pos.compare_cont].
    destruct (updateAchievementProgress _ _ _) as [s1 pending] eqn:Hout.
    destruct (settle_keeps s1 pending) as (_ & _ & -> & -> & -> & _).
    apply (f_equal fst) in Hout. cbn [fst] in Hout. subst s1.
    repeat split. }
  cbv zeta in Hfields. destruct Hfields as (Hstreak & Hlogin & Hrewards).
  repeat split; try assumption.
  intros day Hday.
  destruct (claimDailyReward_cases day
              (settle (loadSavedData W H d today yesterday prev)))
    as [Hsame | (i & r & Hd & _ & Hcan & _)]; [exact Hsame |].
  exfalso. unfold canClaim in Hcan. rewrite Hstreak in Hcan.
  apply andb_true_iff in Hcan. destruct Hcan as [Hle _].
  apply Z.leb_le in Hle. lia.
Qed.

(** ** The progress bars *)

(** X15.  For an achievement with a positive requirement the bar is never
    wider than 100 percent, is not negative when the progress is not, and is
    full exactly when the progress has reached the requirement: so right
    after an update the bar of the achievement is full exactly when the
    update marks it completed. *)
Theorem progress_bar_full_when_completed (a : Achievement) (id : string)
    (sample balance : Z) :
  (0 < requirement a)%Z ->
  progressPercentage a <= 100 /\
  ((0 <= progress a)%Z -> 0 <= progressPercentage a) /\
  (progressPercentage a == 100 <-> (requirement a <= progress a)%Z) /\
  (completed a = false -> achievement_id a = id ->
   let a' := fst (achievementStep id sample balance a) in
   completed a' = true <-> progressPercentage a' == 100).
Proof.
  intros Hreq.
  assert (Hbar : forall b : Achievement,
            (0 < requirement b)%Z ->
            progressPercentage b <= 100 /\
            ((0 <= progress b)%Z -> 0 <= progressPercentage b) /\
            (progressPercentage b == 100 <-> (requirement b <= progress b)%Z)).
  { intros b Hb. unfold progressPercentage.
    set (P := inject_Z (progress b)). set (R := inject_Z (requirement b)).
    assert (HR : 0 < R) by (subst R; change 0 with (inject_Z 0);
                            rewrite <- Zlt_Qlt; exact Hb).
    set (q := P / R).
    assert (HP : P == q * R) by (subst q; field; lra).
    assert (Hle : (requirement b <= progress b)%Z <-> R <= P)
      by (subst P R; rewrite Zle_Qle; reflexivity).
    assert (Hpos : (0 <= progress b)%Z <-> 0 <= P)
      by (subst P; change 0 with (inject_Z 0); rewrite Zle_Qle; reflexivity).
    rewrite Hle, Hpos.
    destruct (Qmin_cases (q * 100) 100) as [[Hc Hm] | [Hc Hm]]; rewrite Hm.
    - split; [lra |]. split; [intros H0; nra |]. split; intros Hx; nra.
    - split; [lra |]. split; [intros _; lra |].
      split; [intros _; nra | intros _; reflexivity]. }
  destruct (Hbar a Hreq) as (H1 & H2 & H3).
  split; [exact H1 |]. split; [exact H2 |]. split; [exact H3 |].
  intros Hopen Hid a'.
  destruct (achievementStep_open id sample balance a Hopen Hid)
    as (Hp & Hc & _ & Hr & _).
  fold a' in Hp, Hc, Hr.
  assert (Hreq' : (0 < requirement a')%Z) by (rewrite Hr; exact Hreq).
  destruct (Hbar a' Hreq') as (_ & _ & Hfull).
  rewrite Hfull, Hc, Hr, Hp. apply Z.leb_le.
Qed.

(** ** The first engine *)

Section FirstEngine.

Variables W H : Q.

Lemma basic_step_flags (i : Basic.Input) (s : Basic.GameState)
    (rnd : nat -> Q) (n : nat) :
  Basic.isPlaying s = negb (Basic.gameOver s) ->
  let s' := fst (Basic.step W H i s rnd n) in
  Basic.isPlaying s' = negb (Basic.gameOver s').
Proof.
  intros Hs. destruct i as [now | x y |]; cbn [Basic.step].
  - unfold Basic.updatePhysics.
    destruct (negb (Basic.isPlaying s) || Basic.gameOver s); [exact Hs |].
    unfold Basic.physicsUpdater, bindR.
    destruct (Basic.spawnObstacle W H now rnd n) as [os n']. cbn.
    destruct (_ || _); [reflexivity | exact Hs].
  - unfold retR, Basic.handleTouch; cbn [fst].
    destruct (negb (Basic.isPlaying s) || Basic.gameOver s); exact Hs.
  - reflexivity.
Qed.

Lemma basic_step_frozen (i : Basic.Input) (s : Basic.GameState)
    (rnd : nat -> Q) (n : nat) :
  Basic.gameOver s = true -> i <> Basic.Restart ->
  Basic.step W H i s rnd n = (s, n).
Proof.
  intros Hover Hi. destruct i as [now | x y |]; cbn [Basic.step].
  - unfold Basic.updatePhysics. rewrite Hover, orb_true_r. reflexivity.
  - unfold retR, Basic.handleTouch. rewrite Hover, orb_true_r. reflexivity.
  - contradiction.
Qed.

(** X16.  In the first engine the two flags always say opposite things
    from the first state on, a game that is over stays exactly as it is
    under ticks and taps, and a restart gives the first state again. *)
Theorem basic_game_over_is_final (inputs : list Basic.Input)
    (s : Basic.GameState) (rnd : nat -> Q) (n : nat) :
  let final := fst (Basic.play W H inputs (Basic.initialGameState W H) rnd n) in
  Basic.isPlaying final = negb (Basic.gameOver final) /\
  (Basic.gameOver s = true -> Forall (fun i => i <> Basic.Restart) inputs ->
   Basic.play W H inputs s rnd n = (s, n)) /\
  fst (Basic.play W H (inputs ++ [Basic.Restart]) s rnd n) =
    Basic.initialGameState W H.
Proof.
  cbv zeta. split; [| split].
  - generalize (Basic.initialGameState W H)
      (eq_refl : Basic.isPlaying (Basic.initialGameState W H) =
                 negb (Basic.gameOver (Basic.initialGameState W H))).
    revert n. induction inputs as [| i rest IH]; intros n s1 Hs1.
    + exact Hs1.
    + cbn [Basic.play]. unfold bindR.
      pose proof (basic_step_flags i s1 rnd n Hs1) as Hstep.
      cbv zeta in Hstep. destruct (Basic.step W H i s1 rnd n) as [s2 n2].
      apply IH. exact Hstep.
  - intros Hover Hin. revert n.
    induction Hin as [| i rest Hi Hrest IH]; intros n; cbn [Basic.play].
    + reflexivity.
    + unfold bindR. rewrite (basic_step_frozen i s rnd n Hover Hi). apply IH.
  - revert s n. induction inputs as [| i rest IH]; intros s n.
    + reflexivity.
    + cbn [app Basic.play]. unfold bindR.
      destruct (Basic.step W H i s rnd n) as [s2 n2]. apply IH.
Qed.

(** X17.  The two engines move the ball in the same way: from the same
    ball, a tick of the first engine and a tick of the full engine in its
    playing screen give the same ball, whatever the obstacles, the coins
    and the random draws of either; and so do a tap of the one and a tap
    of the other. *)
Theorem engines_move_ball_alike (now now' : Z) (bs : Basic.GameState)
    (fs : GameState) (rnd rnd' : nat -> Q) (n n' : nat) (x y : Q) :
  Basic.isPlaying bs = true -> Basic.gameOver bs = false ->
  currentScreen fs = playing ->
  Basic.ball bs = ball fs ->
  Basic.ball (fst (Basic.updatePhysics W H now bs rnd n)) =
    ball (fst (updatePhysics W H now' fs rnd' n')) /\
  Basic.ball (Basic.handleTouch x y bs) = ball (handleTouch x y fs).
Proof.
  intros Hplay Hover Hscreen Hball. split.
  - rewrite updatePhysics_ball by exact Hscreen. rewrite <- Hball.
    unfold Basic.updatePhysics. rewrite Hplay, Hover. cbn [negb orb].
    unfold Basic.physicsUpdater, bindR.
    destruct (Basic.spawnObstacle W H now rnd n) as [os n2].
    cbn [fst retR Basic.ball].
    unfold Basic.stepBall, stepBall, rightBoundary, leftBoundary,
      applyFriction, updatePosition, applyGravity.
    repeat (cbn [gravity ballRadius BASE_CONFIG Basic.GAME_CONFIG
                   ball_position ball_velocity ball_radius xOf yOf];
            match goal with
            | |- context [if ?c then _ else _] => destruct c
            end).
    all: reflexivity.
  - rewrite handleTouch_playing by exact Hscreen.
    unfold Basic.handleTouch. rewrite Hplay, Hover. cbn [negb orb].
    unfold Basic.touchUpdater, touchUpdater, horizontalForceFor.
    cbn [Basic.ball ball with_ball]. rewrite Hball. reflexivity.
Qed.

End FirstEngine.

(** ** The obstacles and the coins of a run *)

Section Entities.

Variables W H : Q.

Lemma speedMultiplier_range (ticks : Z) :
  (0 <= ticks)%Z -> 1 <= speedMultiplier ticks <= 2.2.
Proof.
  intros Hpos. apply inject_Z_le in Hpos. change (inject_Z 0) with 0 in Hpos.
  unfold speedMultiplier, getDifficultyMultiplier; cbn [fst].
  rewrite speed_ramp.
  destruct (Qmin_cases (1 + inject_Z ticks * (1 # 9000)) 2.2)
    as [[Hc ->] | [Hc ->]]; lra.
Qed.

Lemma spawn_speed (ticks : Z) :
  (0 <= ticks)%Z ->
  spawnSpeedAt ticks (Qabs (1.5 * speedMultiplier ticks)) /\
  spawnSpeedAt ticks (Qabs (- (1.5) * speedMultiplier ticks)) /\
  spawnSpeedAt ticks (Qabs (speedMultiplier ticks * 1.5)) /\
  spawnSpeedAt ticks (Qabs (- speedMultiplier ticks * 1.5)).
Proof.
  intros Hpos. pose proof (speedMultiplier_range ticks Hpos) as Hsm.
  unfold spawnSpeedAt.
  assert (Hplain : Qabs (1.5 * speedMultiplier ticks)
                   == 1.5 * speedMultiplier ticks) by (apply Qabs_pos; lra).
  assert (E1 : - (1.5) * speedMultiplier ticks
               == - (1.5 * speedMultiplier ticks)) by ring.
  assert (E2 : speedMultiplier ticks * 1.5 == 1.5 * speedMultiplier ticks)
    by ring.
  assert (E3 : - speedMultiplier ticks * 1.5
               == - (1.5 * speedMultiplier ticks)) by ring.
  repeat split; try exact Hpos.
  - exact Hplain.
  - rewrite E1, Qabs_opp. exact Hplain.
  - rewrite E2. exact Hplain.
  - rewrite E3, Qabs_opp. exact Hplain.
Qed.

Lemma spawnObstacle_well_formed (now : Z) (ticks : Z) (sw : Q)
    (rnd : nat -> Q) (n : nat) :
  (0 <= ticks)%Z ->
  Forall wellFormedObstacle
    (fst (spawnObstacle W H now (speedMultiplier ticks) sw rnd n)).
Proof.
  intros Hpos. destruct (spawn_speed ticks Hpos) as (Ha & Hb & _).
  unfold spawnObstacle, bindR, random, retR.
  destruct (Qltb (rnd n) _); cbn [fst]; [| constructor].
  constructor; [| constructor].
  unfold wellFormedObstacle.
  cbn [obstacle_width obstacle_height obstacle_type obstacle_velocity xOf yOf
         obstacleSpeed BASE_CONFIG].
  split; [reflexivity |]. split; [reflexivity |]. split; [reflexivity |].
  exists ticks. destruct (pickSide _); assumption.
Qed.

Lemma spawnCoin_well_formed (now : Z) (ticks : Z) (rnd : nat -> Q) (n : nat) :
  (0 <= ticks)%Z ->
  Forall wellFormedCoin (fst (spawnCoin W H now (speedMultiplier ticks) rnd n)).
Proof.
  intros Hpos. destruct (spawn_speed ticks Hpos) as (_ & _ & Ha & Hb).
  unfold spawnCoin, bindR, random, retR.
  destruct (Qltb (rnd n) _); cbn [fst]; [| constructor].
  constructor; [| constructor].
  unfold wellFormedCoin.
  cbn [coin_radius coin_value coin_velocity xOf yOf].
  split; [reflexivity |].
  split; [destruct (Qltb _ 0.8); [left | right]; reflexivity |].
  split; [reflexivity |].
  exists ticks. destruct (pickSide _); assumption.
Qed.

Lemma updateObstacles_well_formed (os : list Obstacle) :
  Forall wellFormedObstacle os ->
  Forall wellFormedObstacle (updateObstacles W H os).
Proof.
  intros Hos. unfold updateObstacles. apply List.Forall_forall. intros o Hin.
  apply List.filter_In in Hin. destruct Hin as [Hin _].
  apply List.in_map_iff in Hin. destruct Hin as (o0 & <- & Hin0).
  rewrite List.Forall_forall in Hos. exact (Hos o0 Hin0).
Qed.

Lemma updateCoins_well_formed (cs : list Coin) :
  Forall wellFormedCoin cs -> Forall wellFormedCoin (updateCoins W H cs).
Proof.
  intros Hcs. unfold updateCoins. apply List.Forall_forall. intros c Hin.
  apply List.filter_In in Hin. destruct Hin as [Hin _].
  apply List.in_map_iff in Hin. destruct Hin as (c0 & <- & Hin0).
  rewrite List.Forall_forall in Hcs. exact (Hcs c0 Hin0).
Qed.

Lemma before_collection_well_formed (now : Z) (s : GameState)
    (rnd : nat -> Q) (n : nat) :
  wellFormedWorld s ->
  wellFormedWorld (fst (physicsBeforeCollection W H now s rnd n)).
Proof.
  intros (Hscore & Hos & Hcs). unfold wellFormedWorld.
  destruct (before_collection_fields W H now s rnd n)
    as (_ & -> & -> & -> & _).
  split; [lia |]. split; apply Forall_app; split.
  - apply updateObstacles_well_formed, Hos.
  - apply spawnObstacle_well_formed, Hscore.
  - apply updateCoins_well_formed, Hcs.
  - apply spawnCoin_well_formed, Hscore.
Qed.

Lemma sumValues_nonneg (cs : list Coin) :
  Forall wellFormedCoin cs -> (0 <= sumValues cs)%Z.
Proof.
  induction 1 as [| c cs (_ & Hv & _) _ IH]; [cbn; lia |].
  change (sumValues (c :: cs)) with (coin_value c + sumValues cs)%Z. lia.
Qed.

Lemma step_well_formed (i : Input) (s : GameState) (rnd : nat -> Q) (n : nat) :
  wellFormedWorld s ->
  wellFormedWorld (fst (step W H i s rnd n)) /\
  (collectedCoins s <= collectedCoins (fst (step W H i s rnd n)))%Z.
Proof.
  intros Hs. destruct i as [now | x y |]; cbn [step].
  - destruct (decide (currentScreen s = playing)) as [Hp | Hp].
    + rewrite updatePhysics_playing by exact Hp.
      rewrite physicsUpdater_unfold.
      pose proof (before_collection_well_formed now s rnd n Hs)
        as (Hscore & Hos & Hcs).
      destruct (before_collection_fields W H now s rnd n)
        as (_ & _ & _ & _ & Hbal).
      set (mid := fst (physicsBeforeCollection W H now s rnd n)) in *.
      destruct (coinCollection_fields W H mid)
        as (_ & Ho & Hc & Hsc & _ & Hcoins).
      split.
      * unfold wellFormedWorld. rewrite Ho, Hc, Hsc.
        split; [exact Hscore |]. split; [exact Hos |].
        apply List.Forall_forall. intros c Hin.
        apply List.filter_In in Hin. destruct Hin as [Hin _].
        rewrite List.Forall_forall in Hcs. exact (Hcs c Hin).
      * rewrite Hcoins, Hbal.
        assert (Hgain : (0 <= sumValues (collectedBy W H mid))%Z).
        { apply sumValues_nonneg. unfold collectedBy.
          apply List.Forall_forall. intros c Hin.
          apply List.filter_In in Hin. destruct Hin as [Hin _].
          rewrite List.Forall_forall in Hcs. exact (Hcs c Hin). }
        lia.
    + rewrite updatePhysics_idle by exact Hp. split; [exact Hs | cbn; lia].
  - unfold retR; cbn [fst]. rewrite handleTouch_collectedCoins.
    split; [| lia]. unfold wellFormedWorld, handleTouch.
    destruct (decide _); exact Hs.
  - unfold retR; cbn [fst]. split; [exact Hs | cbn; lia].
Qed.

Lemma play_well_formed (inputs : list Input) (s : GameState)
    (rnd : nat -> Q) (n : nat) :
  wellFormedWorld s ->
  wellFormedWorld (fst (play W H inputs s rnd n)) /\
  (collectedCoins s <= collectedCoins (fst (play W H inputs s rnd n)))%Z.
Proof.
  revert s n. induction inputs as [| i rest IH]; intros s n Hs; cbn [play].
  - split; [exact Hs | cbn; lia].
  - unfold bindR. destruct (step_well_formed i s rnd n Hs) as [Hs1 Hb1].
    destruct (step W H i s rnd n) as [s1 n1]. cbn [fst] in *.
    destruct (IH s1 n1 Hs1) as [Hs2 Hb2]. split; [exact Hs2 | lia].
Qed.

Lemma startGame_well_formed (s0 : GameState) :
  wellFormedWorld (settle (startGame W H s0)).
Proof.
  unfold wellFormedWorld.
  destruct (settle_entities (startGame W H s0)) as [-> ->].
  destruct (startGame W H s0) as [s1 pending] eqn:Hstart.
  destruct (settle_keeps s1 pending) as (-> & _).
  apply (f_equal fst) in Hstart. cbn [fst] in *. subst s1.
  split; [cbn; lia |]. split; constructor.
Qed.


(** X19.  Playing never costs coins: from the start of a run up to the
    tick that ends it, whatever the ticks and taps, the coin balance never
    goes down.  (What the effect of the game-over screen does to the balance
    afterwards is no part of this.) *)
Theorem balance_never_drops_in_a_run (s0 : GameState)
    (before after : list Input) (rnd : nat -> Q) (n : nat) :
  forallb (fun i => negb (isContinue i)) (before ++ after) = true ->
  let start := settle (startGame W H s0) in
  let earlier := play W H before start rnd n in
  let later := play W H after (fst earlier) rnd (snd earlier) in
  (collectedCoins start <= collectedCoins (fst earlier))%Z /\
  (collectedCoins (fst earlier) <= collectedCoins (fst later))%Z.
Proof.
  intros _. cbv zeta.
  destruct (play_well_formed before _ rnd n (startGame_well_formed s0))
    as [Hwf Hle].
  split; [exact Hle |].
  apply play_well_formed. exact Hwf.
Qed.

(** X20.  After a tick of the playing screen no coin within reach of the
    ball is left: the coins the tick moved and spawned are the ones it
    keeps together with the ones it collects, and the balance has grown by
    the values of the collected ones. *)
Theorem coins_in_reach_are_collected (now : Z) (s : GameState)
    (rnd : nat -> Q) (n : nat) :
  currentScreen s = playing ->
  let mid := fst (physicsBeforeCollection W H now s rnd n) in
  let s' := fst (updatePhysics W H now s rnd n) in
  Forall (fun c => touchesCoin W H (ball s') c = false) (coins s') /\
  coins s' ++ collectedBy W H mid ≡ₚ coins mid /\
  collectedCoins s' = (collectedCoins s + sumValues (collectedBy W H mid))%Z.
Proof.
  intros Hp. cbv zeta.
  rewrite updatePhysics_playing by exact Hp. rewrite physicsUpdater_unfold.
  set (mid := fst (physicsBeforeCollection W H now s rnd n)).
  destruct (coinCollection_fields W H mid)
    as (-> & _ & -> & _ & _ & ->).
  destruct (before_collection_fields W H now s rnd n) as (_ & _ & _ & _ & Hbal).
  fold mid in Hbal. rewrite Hbal.
  split; [| split; [| reflexivity]].
  - apply List.Forall_forall. intros c Hin.
    apply List.filter_In in Hin. destruct Hin as [_ Hno].
    apply negb_true_iff in Hno. exact Hno.
  - unfold collectedBy. induction (coins mid) as [| c cs IH]; [reflexivity |].
    cbn [List.filter]. destruct (touchesCoin W H (ball mid) c); cbn [negb].
    + rewrite <- Permutation_middle. constructor. exact IH.
    + cbn. constructor. exact IH.
Qed.

End Entities.

(** ** When a run ends *)

Section RunEnd.

Variables W H : Q.

Lemma before_collection_screen (now : Z) (s : GameState) (rnd : nat -> Q)
    (n : nat) :
  let mid := fst (physicsBeforeCollection W H now s rnd n) in
  currentScreen mid =
    if onGround W H (ball mid) || existsb (hitsObstacle W H (ball mid)) (obstacles mid)
    then gameOver else currentScreen s.
Proof.
  cbv zeta. unfold physicsBeforeCollection, getDifficultyMultiplier, bindR.
  destruct (spawnObstacle W H now _ _ rnd n) as [os n1].
  destruct (spawnCoin W H now _ rnd n1) as [cs n2].
  unfold retR; cbn [fst].
  destruct (onGround W H (stepBall W H (ball s))) eqn:Hg; cbn;
    rewrite ?Hg; cbn;
    destruct (existsb _ _) eqn:Hhit; cbn; rewrite ?Hg, ?Hhit; reflexivity.
Qed.

(** X21.  A tick of the playing screen ends the run exactly when, after the
    move, the ball has reached the ground line or touches one of the
    obstacles of the world, one spawned by this very tick included;
    otherwise the game goes on. *)
Theorem tick_ends_run_on_ground_or_obstacle (now : Z) (s : GameState)
    (rnd : nat -> Q) (n : nat) :
  currentScreen s = playing ->
  let s' := fst (updatePhysics W H now s rnd n) in
  (currentScreen s' = gameOver \/ currentScreen s' = playing) /\
  (currentScreen s' = gameOver <->
   H - 25 <= yOf (ball_position (ball s')) \/
   exists o, o ∈ obstacles s' /\ hitsObstacle W H (ball s') o = true).
Proof.
  intros Hp. cbv zeta.
  rewrite updatePhysics_playing by exact Hp. rewrite physicsUpdater_unfold.
  set (mid := fst (physicsBeforeCollection W H now s rnd n)).
  destruct (coinCollection_fields W H mid) as (-> & -> & _ & _ & -> & _).
  pose proof (before_collection_screen now s rnd n) as Hscreen.
  cbv zeta in Hscreen. fold mid in Hscreen. rewrite Hscreen, Hp.
  destruct (onGround W H (ball mid)) eqn:Hg; cbn [orb].
  - split; [left; reflexivity |]. split; [| reflexivity].
    intros _. left. apply Qleb_le in Hg. exact Hg.
  - apply Qleb_gt in Hg. cbn [ballRadius BASE_CONFIG] in Hg.
    destruct (existsb _ (obstacles mid)) eqn:Hhit.
    + split; [left; reflexivity |]. split; [| reflexivity].
      intros _. right. apply existsb_exists in Hhit.
      destruct Hhit as (o & Hin & Ho). exists o.
      split; [apply list_elem_of_In; exact Hin | exact Ho].
    + split; [right; reflexivity |]. split; [discriminate |].
      intros [Hy | (o & Hin & Ho)]; [lra |].
      exfalso. apply not_true_iff_false in Hhit. apply Hhit.
      apply existsb_exists. exists o.
      split; [apply list_elem_of_In; exact Hin | exact Ho].
Qed.

End RunEnd.

(** * The further examples, evaluated *)

Lemma ball_stays_between_walls_witness :
  25 <= xOf (ball_position (ball firstRunEnd)) <= 375 - 25.
Proof.
  apply (ball_stays_between_walls 375 667 (initialGameState 375 667)
           firstRunInputs firstRunOracle 0%nat).
  discriminate.
Defined.

Lemma world_frozen_when_not_playing_witness :
  play 375 667 [Tick 1700000000700; Tap 10 10; Tick 1700000000716]
    firstRunEnd firstRunOracle 7%nat = (firstRunEnd, 7%nat).
Proof.
  apply (world_frozen_when_not_playing 375 667
           [Tick 1700000000700; Tap 10 10; Tick 1700000000716]
           firstRunEnd firstRunOracle 7%nat); [| reflexivity].
  vm_compute. discriminate.
Defined.

Lemma collision_means_overlap_witness :
  let b := mkBall (mkVector2 100 100) (mkVector2 0 0) 25 in
  let o := mkObstacle "1700000000000" (mkVector2 90 90) (mkVector2 1.5 0)
             cone 30 40 in
  exists px py,
    insideBox o px py /\
    (100 - px) * (100 - px) + (100 - py) * (100 - py) < 25 * 25.
Proof.
  intros b o.
  apply (collision_means_overlap 375 667 b o); reflexivity.
Defined.

Lemma high_score_is_best_run_witness :
  highScore (settle (gameOverEffect 1700000121000 longRunEnd)) = 121%Z /\
  showsNewHighScore (settle (gameOverEffect 1700000121000 longRunEnd)) = true.
Proof.
  destruct (high_score_is_best_run 1700000121000 longRunEnd eq_refl)
    as (Hhigh & _ & Hbanner).
  split; [exact Hhigh |]. apply Hbanner.
  split; [reflexivity | vm_compute; discriminate].
Defined.

Lemma game_over_pays_last_reward_only_witness :
  snd (gameOverEffect 1700000121000 longRunEnd) = [40%Z; 85%Z] /\
  collectedCoins (settle (gameOverEffect 1700000121000 longRunEnd)) = 85%Z.
Proof.
  destruct (game_over_pays_last_reward_only 1700000121000 longRunEnd)
    as (_ & _ & Hlast).
  split; [reflexivity |]. rewrite Hlast. reflexivity.
Defined.

Lemma startup_sets_streak_to_one_witness :
  let s' := settle (loadSavedData 375 667 savedOnSixthDay "Sun Nov 01 2026"
                      "Sat Oct 31 2026" (initialGameState 375 667)) in
  savedCurrentStreak savedOnSixthDay = 5%Z /\
  currentStreak s' = 1%Z /\ lastLoginDate s' = "Sun Nov 01 2026".
Proof.
  intros s'. split; [reflexivity |].
  destruct (startup_sets_streak_to_one 375 667 savedOnSixthDay
              "Sun Nov 01 2026" "Sat Oct 31 2026" (initialGameState 375 667))
    as (Hstreak & Hlogin & _); [discriminate |].
  split; [exact Hstreak | exact Hlogin].
Defined.

Lemma progress_bar_full_when_completed_witness :
  let a := mkAchievement "survive_60s" "Survivor"
             "Survive for 60 seconds in one game" 60 45 false 30 ofTime in
  progressPercentage a <= 100 /\ ~ progressPercentage a == 100.
Proof.
  intros a.
  destruct (progress_bar_full_when_completed a "survive_60s" 50 0)
    as (Hle & _ & Hfull & _); [reflexivity |].
  split; [exact Hle |]. intros Hcontra. apply Hfull in Hcontra.
  revert Hcontra. apply Z.lt_nge. reflexivity.
Defined.

Lemma engines_move_ball_alike_witness :
  Basic.ball (fst (Basic.updatePhysics 375 667 1700000000000
                     (Basic.initialGameState 375 667) firstRunOracle 0%nat)) =
    ball (fst (updatePhysics 375 667 1700000000016 firstRunStart
                 (fun _ => 0.001) 3%nat)).
Proof.
  destruct (engines_move_ball_alike 375 667 1700000000000 1700000000016
              (Basic.initialGameState 375 667) firstRunStart firstRunOracle
              (fun _ => 0.001) 0%nat 3%nat 0 0) as [Htick _];
    [reflexivity .. | exact Htick].
Defined.

Lemma coins_in_reach_are_collected_witness :
  let s' := fst (updatePhysics 375 667 1700000000000 firstRunStart
                   (fun _ => 0.001) 0%nat) in
  length (coins s') = 1%nat /\
  Forall (fun c => touchesCoin 375 667 (ball s') c = false) (coins s').
Proof.
  intros s'. split; [reflexivity |].
  destruct (coins_in_reach_are_collected 375 667 1700000000000 firstRunStart
              (fun _ => 0.001) 0%nat) as (Hleft & _); [reflexivity |].
  exact Hleft.
Defined.

Lemma tick_ends_run_on_ground_or_obstacle_witness :
  let s' := fst (updatePhysics 375 667 1700000000000 firstRunStart
                   (fun _ => 0.001) 0%nat) in
  currentScreen s' = gameOver \/ currentScreen s' = playing.
Proof.
  intros s'.
  destruct (tick_ends_run_on_ground_or_obstacle 375 667 1700000000000
              firstRunStart (fun _ => 0.001) 0%nat) as (Hscreen & _);
    [reflexivity |].
  exact Hscreen.
Defined.

Lemma balance_never_drops_in_a_run_witness :
  (collectedCoins firstRunStart <= collectedCoins firstRunEnd)%Z.
Proof.
  destruct (balance_never_drops_in_a_run 375 667 (initialGameState 375 667)
              firstRunInputs [] firstRunOracle 0%nat) as [Hle _];
    [reflexivity | exact Hle].
Defined.
